(** * LangChainAF: the two HTTP handlers of [function_app.py]

    A shallow embedding of [process_document] and [get_answer] and of the
    helpers [initialize_embeddings] and [get_pinecone_client].

    - Python [str] is [string], one [ascii] per character (the code points
      below 256); Python [int] is [Z]; Python [float] is the kernel's
      binary64 [float], so [score > 0.7] is the IEEE comparison the
      interpreter performs.
    - The request is seen through the two expressions the handlers evaluate
      on it; the response body is the text [json.dumps] writes.
    - Every call that leaves the handler (environment, clock, embedding
      client, vector index, chat completion) is a constructor of [call]; the
      handler runs in a monad that threads the state of the outside world,
      records each call in a trace and propagates Python exceptions.
    - [try: ... except Exception as e:] is [try_except]. *)

From Stdlib Require Import ZArith NArith List String Ascii Bool Lia Floats.
From Stdlib Require DecimalString HexadecimalString.
Import ListNotations.

Set Warnings "-inexact-float,-register-all".
Set Implicit Arguments.
Open Scope list_scope.
Open Scope Z_scope.
Open Scope string_scope.

(** ** Python values *)

(** The values [json.loads] produces and [json.dumps] consumes.  A [dict] is
    kept as the list of its items in insertion order. *)
Inductive json : Type :=
| JNull
| JBool (b : bool)
| JInt (n : Z)
| JFloat (f : float)
| JString (s : string)
| JArray (xs : list json)
| JObject (items : list (string * json)).

(** [type(v).__name__]. *)
Definition type_name (v : json) : string :=
  match v with
  | JNull => "NoneType"
  | JBool _ => "bool"
  | JInt _ => "int"
  | JFloat _ => "float"
  | JString _ => "str"
  | JArray _ => "list"
  | JObject _ => "dict"
  end.

(** [bool(v)]: [None], [False], zero, and empty containers are falsy. *)
Definition truthy (v : json) : bool :=
  match v with
  | JNull => false
  | JBool b => b
  | JInt n => negb (n =? 0)%Z
  | JFloat f => negb (PrimFloat.eqb f 0%float)
  | JString s => negb (s =? "")
  | JArray xs => match xs with [] => false | _ => true end
  | JObject items => match items with [] => false | _ => true end
  end.

(** [d.get(key, default)] on the items of a dict. *)
Fixpoint dict_get (items : list (string * json)) (key : string) (default : json) : json :=
  match items with
  | [] => default
  | (k, v) :: rest => if k =? key then v else dict_get rest key default
  end.

(** [sep.join(parts)]. *)
Fixpoint join (sep : string) (parts : list string) : string :=
  match parts with
  | [] => ""
  | [p] => p
  | p :: rest => p ++ sep ++ join sep rest
  end.

(** [enumerate(xs)], counting from [i]. *)
Fixpoint enumerate_from {A : Type} (i : Z) (xs : list A) : list (Z * A) :=
  match xs with
  | [] => []
  | x :: rest => (i, x) :: enumerate_from (i + 1) rest
  end.

Definition enumerate {A : Type} (xs : list A) : list (Z * A) := enumerate_from 0 xs.

(** [str.isspace] on one character, for the Latin-1 range a [string] holds. *)
Definition isspace (c : ascii) : bool :=
  let n := nat_of_ascii c in
  ((9 <=? n) && (n <=? 13) || (28 <=? n) && (n <=? 32) || (n =? 133) || (n =? 160))%nat.

Fixpoint lstrip (s : string) : string :=
  match s with
  | "" => ""
  | String c rest => if isspace c then lstrip rest else s
  end.

(** [s.rstrip()]: a character is dropped when it is white space and all that
    follows it has been dropped. *)
Fixpoint rstrip (s : string) : string :=
  match s with
  | "" => ""
  | String c rest =>
      match rstrip rest with
      | "" => if isspace c then "" else String c ""
      | rest' => String c rest'
      end
  end.

(** [s.strip()]. *)
Definition strip (s : string) : string := rstrip (lstrip s).

(** ** [json.dumps] *)

(** The double quote, the line feed, and the blank line between paragraphs. *)
Definition dq : string := String (ascii_of_nat 34) "".
Definition nl : string := String (ascii_of_nat 10) "".
Definition nlnl : string := nl ++ nl.

Definition hex_digit (n : nat) : ascii :=
  nth n (list_ascii_of_string "0123456789abcdef") "0"%char.

(** The [\uXXXX] escape of a character below 256. *)
Definition unicode_escape (c : ascii) : string :=
  let n := nat_of_ascii c in
  "\u00" ++ String (hex_digit (n / 16)) (String (hex_digit (n mod 16)) "").

(** One character under [ensure_ascii=True]: the short escapes, then
    [\uXXXX] for everything outside [' '..'~']. *)
Definition escape_char (c : ascii) : string :=
  let n := nat_of_ascii c in
  if (n =? 34)%nat then "\" ++ dq
  else if (n =? 92)%nat then "\\"
  else if (n =? 10)%nat then "\n"
  else if (n =? 13)%nat then "\r"
  else if (n =? 9)%nat then "\t"
  else if (n =? 8)%nat then "\b"
  else if (n =? 12)%nat then "\f"
  else if ((32 <=? n) && (n <=? 126))%nat then String c ""
  else unicode_escape c.

Fixpoint escape_chars (s : string) : string :=
  match s with
  | "" => ""
  | String c rest => escape_char c ++ escape_chars rest
  end.

Definition encode_basestring_ascii (s : string) : string := dq ++ escape_chars s ++ dq.

Definition int_repr (n : Z) : string :=
  DecimalString.NilZero.string_of_int (Z.to_int n).

Section Dumps.

(** [float.__repr__] with [json]'s spelling of the non-finite values; the
    shortest round-tripping decimal is the interpreter's business. *)
Variable float_repr : float -> string.

Fixpoint json_dumps (v : json) : string :=
  match v with
  | JNull => "null"
  | JBool true => "true"
  | JBool false => "false"
  | JInt n => int_repr n
  | JFloat f => float_repr f
  | JString s => encode_basestring_ascii s
  | JArray xs => "[" ++ join ", " (map json_dumps xs) ++ "]"
  | JObject items =>
      "{" ++ join ", "
               (map (fun kv => encode_basestring_ascii (fst kv) ++ ": " ++ json_dumps (snd kv))
                    items)
          ++ "}"
  end.

End Dumps.

(** ** Exceptions *)

(** A traceback object: where the interpreter put it, and the frames it
    records (function name and line), outermost first. *)
Record traceback : Type := Traceback {
  tb_address : N;
  tb_frames : list (string * Z)
}.

(** [str(tb)]: a traceback has no [__str__] of its own, so this is
    [object.__repr__]. *)
Definition str_traceback (tb : traceback) : string :=
  "<traceback object at 0x"
    ++ HexadecimalString.NilZero.string_of_uint (N.to_hex_uint (tb_address tb)) ++ ">".

(** An instance of [Exception]: what [except Exception as e] binds. *)
Record exn : Type := Exn {
  exn_type_name : string;      (* type(e).__name__ *)
  exn_str : string;            (* str(e) *)
  exn_traceback : traceback    (* e.__traceback__ *)
}.

Inductive result (A : Type) : Type :=
| Ok (a : A)
| Raise (e : exn).

Arguments Ok {A} a.
Arguments Raise {A} e.

(** ** Documents, requests and responses *)

(** [langchain.docstore.document.Document]. *)
Record Document : Type := mkDocument {
  page_content : string;
  metadata : list (string * json)
}.

(** [func.HttpRequest], seen through the two expressions the handlers
    evaluate on it: [req.get_body().decode('utf-8')] and [req.get_json()].
    Either may raise. *)
Record HttpRequest : Type := mkRequest {
  get_body_decode : result string;
  get_json : result json
}.

Record HttpResponse : Type := mkResponse {
  body : string;
  status_code : Z;
  mimetype : string
}.

(** [func.HttpResponse(body, status_code=..., mimetype=...)]: an absent
    status is 200, an absent mimetype is [text/plain]. *)
Definition func_HttpResponse (b : string) (status : option Z) (mime : option string)
  : HttpResponse :=
  {| body := b;
     status_code := match status with Some s => s | None => 200 end;
     mimetype := match mime with Some m => m | None => "text/plain" end |}.

(** ** The outside world *)

(** The calls that leave the handler, each indexed by what it returns. *)
Inductive call : Type -> Type :=
| os_getenv (name : string) : call (option string)
| datetime_now_str : call string
| OpenAIEmbeddings (openai_api_key : string) : call unit
| embeddings_embedding_dim : call Z
| PineconeClient (api_key : string) : call unit
| pc_list_indexes : call (list string)
| pc_create_index (name : string) (dimension : Z) (metric pod_type cloud region : string)
  : call unit
| pc_Index (name : string) : call unit
| PineconeVectorStore (text_key : string) : call unit
| vector_store_add_documents (docs : list Document) : call unit
| vector_store_similarity_search_with_score (query : json) (k : Z)
  : call (list (Document * float))
| OpenAI (api_key : option string) : call unit
| chat_completions_create (model : string) (messages : list json)
                          (temperature : float) (max_tokens : Z)
  : call (list (option string)).

(** What a run leaves behind: the log, and every call with its outcome. *)
Inductive event : Type :=
| LogInfo (msg : string)
| LogError (msg : string)
| Called {A : Type} (c : call A) (r : result A).

Definition is_call (e : event) : bool :=
  match e with
  | Called _ _ => true
  | _ => false
  end.

Definition is_chat_completion (e : event) : bool :=
  match e with
  | Called (chat_completions_create _ _ _ _) _ => true
  | _ => false
  end.

(** The documents handed to [add_documents]. *)
Definition upserted (e : event) : list (list Document) :=
  match e with
  | Called (vector_store_add_documents docs) _ => [docs]
  | _ => []
  end.

(** What a similarity search returned. *)
Definition retrieved (e : event) : list (list (Document * float)) :=
  match e with
  | Called c r =>
      match c in call A return result A -> list (list (Document * float)) with
      | vector_store_similarity_search_with_score _ _ =>
          fun r => match r with Ok results => [results] | Raise _ => [] end
      | _ => fun _ => []
      end r
  | _ => []
  end.

(** What the clock answered. *)
Definition clock_read (e : event) : list string :=
  match e with
  | Called c r =>
      match c in call A return result A -> list string with
      | datetime_now_str => fun r => match r with Ok now => [now] | Raise _ => [] end
      | _ => fun _ => []
      end r
  | _ => []
  end.

(** ** The handlers *)

Section Handlers.

(** What the interpreter and the libraries supply: the decimal spelling of
    a float, [str] of a value that is not a [str], and
    [RecursiveCharacterTextSplitter(chunk_size, chunk_overlap,
    length_function=len, separators).split_text]. *)
Variable float_repr : float -> string.
Variable str_other : json -> string.
Variable split_text : Z -> Z -> list string -> string -> list string.

(** The outside world: its state, how it answers a call, and where the
    interpreter puts the traceback of an exception raised by the code
    below. *)
Variable W : Type.
Variable service : forall A : Type, call A -> W -> result A * W.
Variable traceback_here : W -> traceback.

Record state : Type := mkState {
  world : W;
  trace : list event
}.

Definition M (A : Type) : Type := state -> result A * state.

Definition ret {A : Type} (a : A) : M A := fun st => (Ok a, st).

Definition bind {A B : Type} (m : M A) (k : A -> M B) : M B :=
  fun st =>
    match m st with
    | (Ok a, st') => k a st'
    | (Raise e, st') => (Raise e, st')
    end.

Notation "x <- m ;; k" := (bind m (fun x => k))
  (at level 61, m at next level, right associativity).
Notation "m ;;; k" := (bind m (fun _ => k))
  (at level 61, right associativity).

Definition record (e : event) (st : state) : state :=
  {| world := world st; trace := (trace st ++ [e])%list |}.

Definition logging_info (msg : string) : M unit := fun st => (Ok tt, record (LogInfo msg) st).

Definition logging_error (msg : string) : state -> state := record (LogError msg).

(** A call to the outside: recorded, then answered by the world. *)
Definition ext {A : Type} (c : call A) : M A :=
  fun st =>
    let (r, w') := service c (world st) in
    (r, {| world := w'; trace := (trace st ++ [Called c r])%list |}).

(** [raise T(msg)]. *)
Definition raise {A : Type} (type_name msg : string) : M A :=
  fun st => (Raise (Exn type_name msg (traceback_here (world st))), st).

(** The outcome of an expression of the request, which may have raised. *)
Definition eval {A : Type} (r : result A) : M A := fun st => (r, st).

(** [try: body / except Exception as e: handler(e)]. *)
Definition try_except (body : M HttpResponse) (handler : exn -> state -> HttpResponse * state)
  : state -> HttpResponse * state :=
  fun st =>
    match body st with
    | (Ok r, st') => (r, st')
    | (Raise e, st') => handler e st'
    end.

(** [str(v)] as an f-string renders it. *)
Definition py_str (v : json) : string :=
  match v with
  | JString s => s
  | _ => str_other v
  end.

(** [v.get(key, default)]: only a dict has [get]. *)
Definition py_get (v : json) (key : string) (default : json) : M json :=
  match v with
  | JObject items => ret (dict_get items key default)
  | _ => raise "AttributeError" ("'" ++ type_name v ++ "' object has no attribute 'get'")
  end.

Definition initialize_embeddings : M unit :=
  openai_api_key <- ext (os_getenv "OPENAI_API_KEY") ;;
  match openai_api_key with
  | None | Some "" => raise "ValueError" "OPENAI_API_KEY not found in environment variables"
  | Some key => ext (OpenAIEmbeddings key)
  end.

Definition get_pinecone_client : M unit :=
  pinecone_api_key <- ext (os_getenv "PINECONE_API_KEY") ;;
  match pinecone_api_key with
  | None | Some "" => raise "ValueError" "PINECONE_API_KEY not found in environment variables"
  | Some key => ext (PineconeClient key)
  end.

(** The comprehension that builds [docs]: the clock is read once per
    chunk. *)
Fixpoint make_docs (indexed : list (Z * string)) : M (list Document) :=
  match indexed with
  | [] => ret []
  | (i, t) :: rest =>
      now <- ext datetime_now_str ;;
      docs <- make_docs rest ;;
      ret ({| page_content := t;
              metadata := [("chunk_index", JInt i); ("upload_date", JString now)] |}
           :: docs)
  end.

Definition index_name : string := "langchain".

Definition process_document_body (req : HttpRequest) : M HttpResponse :=
  content <- eval (get_body_decode req) ;;
  logging_info ("Content received: " ++ substring 0 100 content) ;;;
  if content =? "" then
    ret (func_HttpResponse "No content received" (Some 400) None)
  else
    let texts := split_text 1000 200 [nlnl; nl; " "; ""] content in
    docs <- make_docs (enumerate texts) ;;
    initialize_embeddings ;;;
    get_pinecone_client ;;;
    existing_indexes <- ext pc_list_indexes ;;
    (if existsb (String.eqb index_name) existing_indexes then ret tt
     else
       dimension <- ext embeddings_embedding_dim ;;
       ext (pc_create_index index_name dimension "cosine" "s1.x1" "aws" "us-east-1")) ;;;
    ext (pc_Index index_name) ;;;
    ext (PineconeVectorStore "text") ;;;
    ext (vector_store_add_documents docs) ;;;
    ret (func_HttpResponse
           (json_dumps float_repr
              (JObject [("status", JString "success");
                        ("chunks_processed", JInt (Z.of_nat (List.length docs)))]))
           None (Some "application/json")).

Definition process_document_except (e : exn) (st : state) : HttpResponse * state :=
  let st' := logging_error ("Error processing document: " ++ exn_str e) st in
  let error_details :=
    JObject [("error", JString (exn_str e));
             ("type", JString (exn_type_name e));
             ("trace", JString (str_traceback (exn_traceback e)))] in
  (func_HttpResponse (json_dumps float_repr error_details) (Some 500)
     (Some "application/json"), st').

Definition process_document (req : HttpRequest) (st : state) : HttpResponse * state :=
  try_except (process_document_body req) process_document_except
    (record (LogInfo "Process Document function processed a request.") st).

Definition score_threshold : float := 0.7%float.

Definition no_answer : string :=
  "I couldn't find any relevant information to answer your question.".

Definition get_answer_body (req : HttpRequest) : M HttpResponse :=
  req_body <- eval (get_json req) ;;
  query <- py_get req_body "query" JNull ;;
  system_prompt <- py_get req_body "system_prompt" (JString "You are an AI assistant.") ;;
  if negb (truthy query) then
    ret (func_HttpResponse
           (json_dumps float_repr (JObject [("error", JString "No query provided")]))
           (Some 400) (Some "application/json"))
  else
    initialize_embeddings ;;;
    get_pinecone_client ;;;
    ext (pc_Index index_name) ;;;
    ext (PineconeVectorStore "text") ;;;
    results <- ext (vector_store_similarity_search_with_score query 3) ;;
    let filtered_results :=
      filter (fun ds => PrimFloat.ltb score_threshold (snd ds)) results in
    match filtered_results with
    | [] =>
        ret (func_HttpResponse
               (json_dumps float_repr
                  (JObject [("answer", JString no_answer);
                            ("metadata",
                             JObject [("query", query);
                                      ("documents_found",
                                       JInt (Z.of_nat (List.length results)))])]))
               None (Some "application/json"))
    | _ =>
        let context := join nlnl (map (fun ds => page_content (fst ds)) filtered_results) in
        let messages :=
          [JObject [("role", JString "system"); ("content", system_prompt)];
           JObject [("role", JString "user");
                    ("content",
                     JString ("Context:" ++ nl ++ context ++ nlnl
                                ++ "Question: " ++ py_str query))]] in
        api_key <- ext (os_getenv "OPENAI_API_KEY") ;;
        ext (OpenAI api_key) ;;;
        choices <- ext (chat_completions_create "gpt-4" messages 0.2%float 800) ;;
        answer <-
          match choices with
          | [] => raise "IndexError" "list index out of range"
          | None :: _ => raise "AttributeError" "'NoneType' object has no attribute 'strip'"
          | Some content :: _ => ret (strip content)
          end ;;
        ret (func_HttpResponse
               (json_dumps float_repr
                  (JObject [("answer", JString answer);
                            ("context", JString context);
                            ("similar_docs",
                             JArray (map (fun ds =>
                                            JObject [("content", JString (page_content (fst ds)));
                                                     ("score", JFloat (snd ds))])
                                         filtered_results))]))
               None (Some "application/json"))
    end.

Definition get_answer_except (e : exn) (st : state) : HttpResponse * state :=
  let st' := logging_error ("Error generating answer: " ++ exn_str e) st in
  (func_HttpResponse (json_dumps float_repr (JObject [("error", JString (exn_str e))]))
     (Some 500) (Some "application/json"), st').

Definition get_answer (req : HttpRequest) (st : state) : HttpResponse * state :=
  try_except (get_answer_body req) get_answer_except
    (record (LogInfo "Get Answer function processed a request.") st).

End Handlers.

(** ** The text splitter

    [RecursiveCharacterTextSplitter] belongs to a library the repository
    imports; its code is not in the repository.  The handler fixes its
    parameters: chunks of 1000 characters, an overlap of 200, the length of
    a text is [len], the separators are tried in the order blank line, line
    feed, space, nothing.  The definitions below follow the algorithm of that
    class: split on the first separator that occurs, keep the separator at
    the head of the piece that follows it, split a piece that is too long
    with the separators that remain, and merge the short pieces into chunks
    that are stripped of white space at both ends. *)

Module LangChain.

(** Modelled from the spec: the [length_function] of the splitter, absent
    with the library; the handler passes [len]. *)
Definition len (s : string) : Z := Z.of_nat (String.length s).

(** Modelled from the spec: the test that a separator occurs in the text,
    [re.search(re.escape(sep), text)] in the absent library. *)
Fixpoint contains (sep text : string) : bool :=
  match text with
  | "" => prefix sep ""
  | String _ rest => prefix sep text || contains sep rest
  end.

(** Modelled from the spec: the cut at the last separator, the empty one,
    [list(text)] in the absent library: one piece per character. *)
Fixpoint chars (text : string) : list string :=
  match text with
  | "" => []
  | String c rest => String c "" :: chars rest
  end.

(** Modelled from the spec: the cut at a separator, absent with the library:
    [re.split] on a literal, non-empty separator with the separator kept at
    the head of the piece that follows it.  [skip] counts the characters of
    a matched separator still to be consumed, [piece] is the piece being
    read. *)
Fixpoint split_keep (sep : string) (skip : nat) (piece text : string) : list string :=
  match text with
  | "" => [piece]
  | String c rest =>
      match skip with
      | S k => split_keep sep k (piece ++ String c "") rest
      | O =>
          if prefix sep text
          then piece :: split_keep sep (String.length sep - 1) (String c "") rest
          else split_keep sep 0 (piece ++ String c "") rest
      end
  end.

(** Modelled from the spec: the filter [s != ""] on the pieces, absent with
    the library. *)
Definition nonempty (s : string) : bool := negb (s =? "").

(** Modelled from the spec: [_split_text_with_regex(text, separator,
    keep_separator=True)] of the text-splitter library, which is not part
    of the repository.  The spec names the boundary preference (double
    newline, newline, space, character); an empty separator cuts between
    every two characters. *)
Definition _split_text_with_regex (text separator : string) : list string :=
  filter nonempty
    (match separator with
     | "" => chars text
     | _ => split_keep separator 0 "" text
     end).

Section Splitter.

Variable chunk_size : Z.
Variable chunk_overlap : Z.

(** Modelled from the spec: [TextSplitter._join_docs] of the absent library:
    the pieces joined and stripped; nothing when only
    white space is left. *)
Definition _join_docs (docs : list string) (separator : string) : option string :=
  match strip (join separator docs) with
  | "" => None
  | text => Some text
  end.

(** Modelled from the spec: [separator_len if ... else 0] in
    [_merge_splits] of the absent library. *)
Definition sep_if (b : bool) (separator_len : Z) : Z :=
  if b then separator_len else 0.

(** Modelled from the spec: the [while] loop of [_merge_splits] of the
    absent library: pieces leave the front of
    [current_doc] until what stays fits the overlap and leaves room for
    the next piece.  With no piece left [total] is 0 and the loop
    stops. *)
Fixpoint drop_front (separator_len _len : Z) (current_doc : list string) (total : Z)
  : list string * Z :=
  match current_doc with
  | [] => ([], total)
  | d0 :: rest =>
      if (chunk_overlap <? total)%Z
         || ((chunk_size <? total + _len + separator_len)%Z && (0 <? total)%Z)
      then drop_front separator_len _len rest
             (total - (len d0 + sep_if (match rest with [] => false | _ => true end)
                                  separator_len))
      else (current_doc, total)
  end.

(** Modelled from the spec: the [for] loop of [_merge_splits] of the absent
    library. *)
Fixpoint merge_loop (separator : string) (splits docs current_doc : list string) (total : Z)
  : list string :=
  match splits with
  | [] =>
      match _join_docs current_doc separator with
      | Some doc => (docs ++ [doc])%list
      | None => docs
      end
  | d :: rest =>
      let separator_len := len separator in
      let _len := len d in
      let '(docs1, (current_doc1, total1)) :=
        if (chunk_size <? total + _len
                          + sep_if (match current_doc with [] => false | _ => true end)
                              separator_len)%Z
        then
          match current_doc with
          | [] => (docs, (current_doc, total))
          | _ =>
              (match _join_docs current_doc separator with
               | Some doc => (docs ++ [doc])%list
               | None => docs
               end,
               drop_front separator_len _len current_doc total)
          end
        else (docs, (current_doc, total)) in
      let current_doc2 := (current_doc1 ++ [d])%list in
      merge_loop separator rest docs1 current_doc2
        (total1 + _len + sep_if (match current_doc1 with [] => false | _ => true end)
                           separator_len)
  end.

(** Modelled from the spec: [TextSplitter._merge_splits] of the
    text-splitter library, which is not part of the repository: pieces
    are packed into chunks of the target size, each chunk starting with
    the tail of the previous one, up to the overlap. *)
Definition _merge_splits (splits : list string) (separator : string) : list string :=
  merge_loop separator splits [] [] 0.

(** Modelled from the spec: the [for s in splits] loop of [_split_text] of
    the absent library; [recur] is what happens
    to a piece that is itself too long. *)
Fixpoint split_loop (recur : string -> list string) (splits final_chunks _good_splits : list string)
  : list string :=
  match splits with
  | [] =>
      match _good_splits with
      | [] => final_chunks
      | _ => (final_chunks ++ _merge_splits _good_splits "")%list
      end
  | s :: rest =>
      if (len s <? chunk_size)%Z
      then split_loop recur rest final_chunks (_good_splits ++ [s])%list
      else
        let final1 :=
          match _good_splits with
          | [] => final_chunks
          | _ => (final_chunks ++ _merge_splits _good_splits "")%list
          end in
        split_loop recur rest (final1 ++ recur s)%list []
  end.

(** Modelled from the spec: the body of [_split_text] of the absent library
    once the separator is chosen. *)
Definition split_with (recur : string -> list string) (separator text : string)
  : list string :=
  split_loop recur (_split_text_with_regex text separator) [] [].

(** Modelled from the spec: [RecursiveCharacterTextSplitter._split_text]
    of the text-splitter library, which is not part of the repository.
    The first separator that is empty or occurs in the text is used; a
    piece that is still too long is split again with the separators
    after it.  [fallback] is [separators[-1]] of the outermost call. *)
Fixpoint _split_text (fallback : string) (separators : list string) (text : string)
  {struct separators} : list string :=
  match separators with
  | [] => split_with (fun s => [s]) fallback text
  | _s :: new_separators =>
      if _s =? "" then split_with (fun s => [s]) "" text
      else if contains _s text
           then split_with
                  (match new_separators with
                   | [] => fun s => [s]
                   | _ => _split_text fallback new_separators
                   end)
                  _s text
           else _split_text fallback new_separators text
  end.

End Splitter.

(** Modelled from the spec: [RecursiveCharacterTextSplitter(chunk_size,
    chunk_overlap, length_function=len, separators).split_text(text)], the
    splitter the ingestion handler configures; the library is not part of
    the repository. *)
Definition split_text (chunk_size chunk_overlap : Z) (separators : list string) (text : string)
  : list string :=
  _split_text chunk_size chunk_overlap (last separators "") separators text.

End LangChain.

(** ** A test double for the outside world *)

Module Mock.

(** What the doubles answer: the environment, the indexes that exist, the
    result of the similarity search, the choices of the chat completion. *)
Record config : Type := mkConfig {
  environ : string -> option string;
  indexes : list string;
  search : result (list (Document * float));
  choices : list (option string)
}.

(** The state is the number of clock reads so far. *)
Definition service (cfg : config) (A : Type) (c : call A) (ticks : nat) : result A * nat :=
  match c in call A return result A * nat with
  | os_getenv name => (Ok (environ cfg name), ticks)
  | datetime_now_str =>
      (Ok ("2024-05-01 12:00:00.00000" ++ int_repr (Z.of_nat ticks)), S ticks)
  | OpenAIEmbeddings _ => (Ok tt, ticks)
  | embeddings_embedding_dim => (Ok 1536, ticks)
  | PineconeClient _ => (Ok tt, ticks)
  | pc_list_indexes => (Ok (indexes cfg), ticks)
  | pc_create_index _ _ _ _ _ _ => (Ok tt, ticks)
  | pc_Index _ => (Ok tt, ticks)
  | PineconeVectorStore _ => (Ok tt, ticks)
  | vector_store_add_documents _ => (Ok tt, ticks)
  | vector_store_similarity_search_with_score _ _ => (search cfg, ticks)
  | OpenAI _ => (Ok tt, ticks)
  | chat_completions_create _ _ _ _ => (Ok (choices cfg), ticks)
  end.

Definition traceback_here (ticks : nat) : traceback :=
  {| tb_address := 139637976727552; tb_frames := [] |}.

(** Both keys set. *)
Definition keys (name : string) : option string :=
  if name =? "OPENAI_API_KEY" then Some "sk-test"
  else if name =? "PINECONE_API_KEY" then Some "pc-test"
  else None.

(** The spelling of the three scores the scenarios use. *)
Definition float_repr (f : float) : string :=
  if PrimFloat.eqb f 0.9%float then "0.9"
  else if PrimFloat.eqb f 0.75%float then "0.75"
  else if PrimFloat.eqb f 0.6%float then "0.6"
  else "0.0".

Definition str_other (v : json) : string := json_dumps float_repr v.

Definition doc (text : string) : Document := {| page_content := text; metadata := [] |}.

(** Three hits with scores 0.9, 0.75 and 0.6. *)
Definition three_hits : list (Document * float) :=
  [(doc "alpha", 0.9%float); (doc "beta", 0.75%float); (doc "gamma", 0.6%float)].

(** Three hits, none above the threshold. *)
Definition three_misses : list (Document * float) :=
  [(doc "alpha", 0.7%float); (doc "beta", 0.5%float); (doc "gamma", 0.1%float)].

Definition ready (hits : list (Document * float)) : config :=
  {| environ := keys; indexes := ["langchain"]; search := Ok hits;
     choices := [Some " An answer. "] |}.

Definition text_request (content : string) : HttpRequest :=
  {| get_body_decode := Ok content;
     get_json := Raise (Exn "JSONDecodeError" "Expecting value: line 1 column 1 (char 0)"
                          (traceback_here 0)) |}.

Definition json_request (v : json) : HttpRequest :=
  {| get_body_decode := Ok (json_dumps float_repr v); get_json := Ok v |}.

(** A request whose body is not JSON, the empty body for one. *)
Definition bad_json_request (content : string) : HttpRequest := text_request content.

End Mock.

(** ** The vocabulary of the properties *)

Section Vocabulary.

Variable float_repr : float -> string.
Variable W : Type.

(** A request arrives: nothing has been logged or called yet. *)
Definition start (w : W) : state W := {| world := w; trace := [] |}.

(** The calls of a run. *)
Definition calls (st : state W) : list event := filter is_call (trace st).

(** The query of a request, as [get_answer] reads it: [None] when the body
    is not a dict or has no such key. *)
Definition request_query (req : HttpRequest) : json :=
  match get_json req with
  | Ok (JObject items) => dict_get items "query" JNull
  | _ => JNull
  end.

(** The responses [get_answer] builds. *)
Definition bad_request : HttpResponse :=
  {| body := json_dumps float_repr (JObject [("error", JString "No query provided")]);
     status_code := 400;
     mimetype := "application/json" |}.

Definition server_error (e : exn) : HttpResponse :=
  {| body := json_dumps float_repr (JObject [("error", JString (exn_str e))]);
     status_code := 500;
     mimetype := "application/json" |}.

Definition ingestion_error (e : exn) : HttpResponse :=
  {| body :=
       json_dumps float_repr
         (JObject [("error", JString (exn_str e));
                   ("type", JString (exn_type_name e));
                   ("trace", JString (str_traceback (exn_traceback e)))]);
     status_code := 500;
     mimetype := "application/json" |}.

(** [spec m Q]: from any state, [m] appends some events to the trace, and
    [Q] holds of its outcome and of those events. *)
Definition spec {A : Type} (m : M W A) (Q : result A -> list event -> Prop) : Prop :=
  forall st : state W,
    exists evs, trace (snd (m st)) = (trace st ++ evs)%list /\ Q (fst (m st)) evs.

(** The results that pass the threshold, in the order they came. *)
Definition kept (results : list (Document * float)) : list (Document * float) :=
  filter (fun ds => PrimFloat.ltb score_threshold (snd ds)) results.

Definition no_match (query : json) (found : nat) : HttpResponse :=
  {| body :=
       json_dumps float_repr
         (JObject [("answer", JString no_answer);
                   ("metadata",
                    JObject [("query", query);
                             ("documents_found", JInt (Z.of_nat found))])]);
     status_code := 200;
     mimetype := "application/json" |}.

Definition context_of (hits : list (Document * float)) : string :=
  join nlnl (map (fun ds => page_content (fst ds)) hits).

Definition similar_docs (hits : list (Document * float)) : json :=
  JArray (map (fun ds => JObject [("content", JString (page_content (fst ds)));
                                  ("score", JFloat (snd ds))])
              hits).

Definition answered (answer : string) (hits : list (Document * float)) : HttpResponse :=
  {| body :=
       json_dumps float_repr
         (JObject [("answer", JString answer);
                   ("context", JString (context_of hits));
                   ("similar_docs", similar_docs hits)]);
     status_code := 200;
     mimetype := "application/json" |}.

(** The document built for chunk [i] with text [t] at time [now]. *)
Definition chunk_document (i : Z) (t now : string) : Document :=
  {| page_content := t;
     metadata := [("chunk_index", JInt i); ("upload_date", JString now)] |}.

(** The documents built from the numbered chunks and the clock readings. *)
Fixpoint zip_docs (indexed : list (Z * string)) (nows : list string) : list Document :=
  match indexed, nows with
  | (i, t) :: rest, now :: nows' => chunk_document i t now :: zip_docs rest nows'
  | _, _ => []
  end.

Definition success (chunks : nat) : HttpResponse :=
  {| body :=
       json_dumps float_repr
         (JObject [("status", JString "success");
                   ("chunks_processed", JInt (Z.of_nat chunks))]);
     status_code := 200;
     mimetype := "application/json" |}.

End Vocabulary.

(** *** Scenarios *)

(** [s * n]. *)
Fixpoint str_mul (s : string) (n : nat) : string :=
  match n with
  | O => ""
  | S k => s ++ str_mul s k
  end.

Definition quoted (s : string) : string := dq ++ s ++ dq.

Definition separators : list string := [nlnl; nl; " "; ""].

(** A value has no field of that name: it is not a dict, or it is a dict
    without the key. *)
Definition lacks_field (v : json) (key : string) : bool :=
  match v with
  | JObject items => negb (existsb (String.eqb key) (map fst items))
  | _ => true
  end.

Definition no_keys : Mock.config :=
  {| Mock.environ := fun _ => None; Mock.indexes := []; Mock.search := Ok [];
     Mock.choices := [] |}.

Definition ask (question : string) : HttpRequest :=
  Mock.json_request (JObject [("query", JString question)]).

(** The two handlers in front of the test double. *)
Definition mock_process_document (cfg : Mock.config) (req : HttpRequest)
  : HttpResponse * state nat :=
  process_document Mock.float_repr LangChain.split_text (Mock.service cfg)
    Mock.traceback_here req (start 0%nat).

Definition mock_get_answer (cfg : Mock.config) (req : HttpRequest)
  : HttpResponse * state nat :=
  get_answer Mock.float_repr Mock.str_other (Mock.service cfg)
    Mock.traceback_here req (start 0%nat).

(** *** Chunks and texts *)

(** [s[n:]]. *)
Fixpoint str_drop (n : nat) (s : string) : string :=
  match n, s with
  | O, _ => s
  | S k, String _ rest => str_drop k rest
  | S _, "" => ""
  end.

(** The chunks put back together: each chunk after the first without its
    first [overlap] characters. *)
Definition reconstruct (overlap : nat) (chunks : list string) : string :=
  match chunks with
  | [] => ""
  | c :: cs => join "" (c :: map (str_drop overlap) cs)
  end.

Fixpoint no_whitespace (s : string) : bool :=
  match s with
  | "" => true
  | String c rest => negb (isspace c) && no_whitespace rest
  end.

(** A piece of one character that is not white space. *)
Definition letter (p : string) : Prop :=
  String.length p = 1%nat /\ no_whitespace p = true.

(** The number of chunks of a text of [n] characters without white space:
    one window of 1000, then one more for every 800 characters or part
    thereof. *)
Definition chunk_count (n : nat) : nat :=
  if (n <=? 1000)%nat then 1 else 1 + (n - 1000 + 799) / 800.

(** What [_merge_splits] keeps in [total]: the lengths of the pieces of the
    chunk in progress and of the separators between them. *)
Fixpoint weight (separator_len : Z) (pieces : list string) : Z :=
  match pieces with
  | [] => 0
  | p :: rest =>
      LangChain.len p
      + LangChain.sep_if (match rest with [] => false | _ => true end) separator_len
      + weight separator_len rest
  end.

(** A text of white space only. *)
Fixpoint all_space (s : string) : bool :=
  match s with
  | "" => true
  | String c rest => isspace c && all_space rest
  end.

(** The chunks are placed along a text that comes after [before]: each
    chunk is an overlap followed by a tail; the tails, in order, spell the
    text but for the white space between them, and the overlap of a chunk,
    of at most [overlap_max] characters, is the text that comes just before
    its tail (for a chunk that brings nothing new, the text just before it
    and the white space that follows). *)
Inductive placed (overlap_max : nat) : string -> list string -> string -> Prop :=
| placed_nil (before text : string) :
    all_space text = true ->
    placed overlap_max before [] text
| placed_cons (before overlap tail gap after front back : string) (rest : list string) :
    (String.length overlap <= overlap_max)%nat ->
    all_space gap = true ->
    all_space back = true ->
    tail = "" \/ back = "" ->
    before ++ gap = front ++ overlap ++ back ->
    placed overlap_max (before ++ gap ++ tail) rest after ->
    placed overlap_max before ((overlap ++ tail) :: rest) (gap ++ tail ++ after).

(** A chunk as [_join_docs] leaves it: not empty, no white space at its
    ends. *)
Definition stripped (chunk : string) : Prop := chunk <> "" /\ strip chunk = chunk.

(** [chunk] occurs in [text]. *)
Definition occurs_in (text chunk : string) : Prop :=
  exists front back, text = front ++ chunk ++ back.

(** *** What else a run shows *)

Definition is_error_log (e : event) : bool :=
  match e with
  | LogError _ => true
  | _ => false
  end.

(** The lines logged at level info. *)
Definition info_log (e : event) : list string :=
  match e with
  | LogInfo msg => [msg]
  | _ => []
  end.

Definition is_clock (e : event) : bool :=
  match e with
  | Called datetime_now_str _ => true
  | _ => false
  end.

(** The calls that write to the vector index. *)
Definition writes_index (e : event) : bool :=
  match e with
  | Called (pc_create_index _ _ _ _ _ _) _ => true
  | Called (vector_store_add_documents _) _ => true
  | _ => false
  end.

(** The calls that query the index or the chat model. *)
Definition asks (e : event) : bool :=
  match e with
  | Called (vector_store_similarity_search_with_score _ _) _ => true
  | Called (chat_completions_create _ _ _ _) _ => true
  | _ => false
  end.

(** The arguments of [create_index]. *)
Record index_spec : Type := mkIndexSpec {
  spec_name : string;
  spec_dimension : Z;
  spec_metric : string;
  spec_pod_type : string;
  spec_cloud : string;
  spec_region : string
}.

Definition created (e : event) : list index_spec :=
  match e with
  | Called (pc_create_index name dimension metric pod_type cloud region) _ =>
      [mkIndexSpec name dimension metric pod_type cloud region]
  | _ => []
  end.

(** The names [list_indexes] returned. *)
Definition listed (e : event) : list (list string) :=
  match e with
  | Called c r =>
      match c in call A return result A -> list (list string) with
      | pc_list_indexes => fun r => match r with Ok names => [names] | Raise _ => [] end
      | _ => fun _ => []
      end r
  | _ => []
  end.

(** Every access to [embeddings.embedding_dim], and the values it gave. *)
Definition reads_dimension (e : event) : bool :=
  match e with
  | Called embeddings_embedding_dim _ => true
  | _ => false
  end.

Definition dimension_read (e : event) : list Z :=
  match e with
  | Called c r =>
      match c in call A return result A -> list Z with
      | embeddings_embedding_dim => fun r => match r with Ok d => [d] | Raise _ => [] end
      | _ => fun _ => []
      end r
  | _ => []
  end.

(** The upserts that returned. *)
Definition upsert_done (e : event) : list (list Document) :=
  match e with
  | Called c r =>
      match c in call A return result A -> list (list Document) with
      | vector_store_add_documents docs =>
          fun r => match r with Ok _ => [docs] | Raise _ => [] end
      | _ => fun _ => []
      end r
  | _ => []
  end.

(** The arguments of the similarity searches. *)
Definition searched (e : event) : list (json * Z) :=
  match e with
  | Called (vector_store_similarity_search_with_score query k) _ => [(query, k)]
  | _ => []
  end.

(** The arguments of [chat.completions.create]. *)
Record chat_args : Type := mkChatArgs {
  chat_model : string;
  chat_messages : list json;
  chat_temperature : float;
  chat_max_tokens : Z
}.

Definition chat_request (e : event) : list chat_args :=
  match e with
  | Called (chat_completions_create model messages temperature max_tokens) _ =>
      [mkChatArgs model messages temperature max_tokens]
  | _ => []
  end.

(** The choices a chat completion returned. *)
Definition chat_reply (e : event) : list (list (option string)) :=
  match e with
  | Called c r =>
      match c in call A return result A -> list (list (option string)) with
      | chat_completions_create _ _ _ _ =>
          fun r => match r with Ok choices => [choices] | Raise _ => [] end
      | _ => fun _ => []
      end r
  | _ => []
  end.

(** What [os.getenv] returned, by variable. *)
Definition env_read (e : event) : list (string * option string) :=
  match e with
  | Called c r =>
      match c in call A return result A -> list (string * option string) with
      | os_getenv name => fun r => match r with Ok v => [(name, v)] | Raise _ => [] end
      | _ => fun _ => []
      end r
  | _ => []
  end.

(** The keys the three clients were built with. *)
Definition embedding_keys (e : event) : list string :=
  match e with
  | Called (OpenAIEmbeddings key) _ => [key]
  | _ => []
  end.

Definition pinecone_keys (e : event) : list string :=
  match e with
  | Called (PineconeClient key) _ => [key]
  | _ => []
  end.

Definition chat_keys (e : event) : list (option string) :=
  match e with
  | Called (OpenAI key) _ => [key]
  | _ => []
  end.

(** [not v] for what [os.getenv] returns: the variable is unset or empty. *)
Definition unset (v : option string) : bool :=
  match v with
  | None => true
  | Some s => s =? ""
  end.

(** The system prompt of a request, as [get_answer] reads it. *)
Definition request_system_prompt (req : HttpRequest) : json :=
  match get_json req with
  | Ok (JObject items) => dict_get items "system_prompt" (JString "You are an AI assistant.")
  | _ => JString "You are an AI assistant."
  end.

(** The user message [get_answer] sends to the chat model. *)
Definition user_message (str_other : json -> string) (context : string) (query : json)
  : string :=
  "Context:" ++ nl ++ context ++ nlnl ++ "Question: " ++ py_str str_other query.

(** The clients were built with keys the environment gave: the embedding
    and the index client with a key that is not empty, the chat client with
    whatever was read. *)
Definition keys_from_environment (events : list event) : Prop :=
  (forall key,
      In key (flat_map embedding_keys events) ->
      key <> "" /\ In ("OPENAI_API_KEY", Some key) (flat_map env_read events))
  /\ (forall key,
         In key (flat_map pinecone_keys events) ->
         key <> "" /\ In ("PINECONE_API_KEY", Some key) (flat_map env_read events))
  /\ (forall key,
         In key (flat_map chat_keys events) ->
         In ("OPENAI_API_KEY", key) (flat_map env_read events)).

(** The error of a key the environment does not give. *)
Definition key_error (name : string) (tb : traceback) : exn :=
  Exn "ValueError" (name ++ " not found in environment variables") tb.

(** The two messages [get_answer] sends to the chat model for a request
    and the results it kept. *)
Definition chat_messages_for (str_other : json -> string) (req : HttpRequest)
           (hits : list (Document * float)) : list json :=
  [JObject [("role", JString "system"); ("content", request_system_prompt req)];
   JObject [("role", JString "user");
            ("content",
             JString (user_message str_other (context_of hits) (request_query req)))]].

(** A search returned, and either kept nothing or was followed by a chat
    completion whose first choice has a content. *)
Definition answerable (events : list event) : Prop :=
  exists results,
    flat_map retrieved events = [results]
    /\ (kept results = []
        \/ exists content rest, flat_map chat_reply events = [Some content :: rest]).

(** The exceptions the outside raised. *)
Definition failed (e : event) : list exn :=
  match e with
  | Called _ (Raise e) => [e]
  | _ => []
  end.

(** Call by call, whether it returned. *)
Definition returned (e : event) : list bool :=
  match e with
  | Called _ (Ok _) => [true]
  | Called _ (Raise _) => [false]
  | _ => []
  end.

(** The indexes opened and the text keys of the vector stores built. *)
Definition opened (e : event) : list string :=
  match e with
  | Called (pc_Index name) _ => [name]
  | _ => []
  end.

Definition text_keys (e : event) : list string :=
  match e with
  | Called (PineconeVectorStore text_key) _ => [text_key]
  | _ => []
  end.

(** *** More scenarios *)

(** Only the OpenAI key is set. *)
Definition openai_key_only : Mock.config :=
  {| Mock.environ := fun name => if name =? "OPENAI_API_KEY" then Some "sk-test" else None;
     Mock.indexes := []; Mock.search := Ok []; Mock.choices := [] |}.

(** The search fails. *)
Definition unavailable : exn :=
  Exn "ServiceException" "(503) Service Unavailable" (Mock.traceback_here 0%nat).

Definition search_down : Mock.config :=
  {| Mock.environ := Mock.keys; Mock.indexes := ["langchain"];
     Mock.search := Raise unavailable; Mock.choices := [] |}.

(** Both keys set, and no index named [langchain] yet. *)
Definition no_index : Mock.config :=
  {| Mock.environ := Mock.keys; Mock.indexes := ["other"]; Mock.search := Ok [];
     Mock.choices := [] |}.

(** ** Properties of the handlers *)

Section Properties.

Variable float_repr : float -> string.
Variable str_other : json -> string.
Variable split_text : Z -> Z -> list string -> string -> list string.
Variable W : Type.
Variable service : forall A : Type, call A -> W -> result A * W.
Variable traceback_here : W -> traceback.

Abbreviation run_process_document :=
  (process_document float_repr split_text service traceback_here).
Abbreviation run_get_answer := (get_answer float_repr str_other service traceback_here).

(** *** A program logic for runs *)

Lemma spec_ret {A : Type} (a : A) (Q : result A -> list event -> Prop) :
  Q (Ok a) [] -> spec (W := W) (ret a) Q.
Proof.
  intros HQ st. exists []. cbn. now rewrite app_nil_r.
Qed.

Lemma spec_eval {A : Type} (r : result A) (Q : result A -> list event -> Prop) :
  Q r [] -> spec (W := W) (eval r) Q.
Proof.
  intros HQ st. exists []. cbn. now rewrite app_nil_r.
Qed.

Lemma spec_raise {A : Type} (type_name msg : string) (Q : result A -> list event -> Prop) :
  (forall tb, Q (Raise (Exn type_name msg tb)) []) -> spec (raise traceback_here type_name msg) Q.
Proof.
  intros HQ st. exists []. cbn. rewrite app_nil_r. split; [reflexivity | apply HQ].
Qed.

Lemma spec_logging_info (msg : string) (Q : result unit -> list event -> Prop) :
  Q (Ok tt) [LogInfo msg] -> spec (W := W) (logging_info msg) Q.
Proof.
  intros HQ st. exists [LogInfo msg]. cbn. now split.
Qed.

Lemma spec_ext {A : Type} (c : call A) (Q : result A -> list event -> Prop) :
  (forall r, Q r [Called c r]) -> spec (ext service c) Q.
Proof.
  intros HQ st. unfold ext. destruct (service c (world st)) as [r w'].
  exists [Called c r]. cbn. now split.
Qed.

Lemma spec_bind {A B : Type} (m : M W A) (k : A -> M W B)
      (Q : result B -> list event -> Prop) :
  spec m (fun r evs =>
            match r with
            | Ok a => spec (k a) (fun r' evs' => Q r' (evs ++ evs')%list)
            | Raise e => Q (Raise e) evs
            end) ->
  spec (bind m k) Q.
Proof.
  intros Hm st. unfold bind.
  destruct (Hm st) as (evs & Htr & Hpost).
  destruct (m st) as [[a | e] st1]; cbn in *.
  - destruct (Hpost st1) as (evs' & Htr' & HQ).
    exists (evs ++ evs')%list. split; [| exact HQ].
    rewrite Htr', Htr. now rewrite app_assoc.
  - exists evs. now split.
Qed.

Lemma spec_weaken {A : Type} (m : M W A) (Q Q' : result A -> list event -> Prop) :
  spec m Q -> (forall r evs, Q r evs -> Q' r evs) -> spec m Q'.
Proof.
  intros Hm Himp st. destruct (Hm st) as (evs & Htr & HQ).
  exists evs. split; [exact Htr | now apply Himp].
Qed.

(** A handler is its body under [try]/[except], after the first log line:
    either the body returned and its response is the answer, or it raised
    and the [except] clause logged the error and built the answer. *)
Lemma spec_try_except (body : M W HttpResponse)
      (handler : exn -> HttpResponse) (log : exn -> string) (first : string)
      (Q : result HttpResponse -> list event -> Prop) (w : W) :
  spec body Q ->
  let out :=
    try_except body (fun e st => (handler e, logging_error (log e) st))
      (record (LogInfo first) (start w)) in
  exists evs,
    (exists r, Q (Ok r) evs /\ fst out = r /\ trace (snd out) = LogInfo first :: evs)
    \/ (exists e, Q (Raise e) evs /\ fst out = handler e
                  /\ trace (snd out) = (LogInfo first :: evs ++ [LogError (log e)])%list).
Proof.
  intros Hbody out. subst out. unfold try_except.
  destruct (Hbody (record (LogInfo first) (start w))) as (evs & Htr & HQ).
  exists evs.
  destruct (body (record (LogInfo first) (start w))) as [[r | e] st1]; cbn in *.
  - left. exists r. repeat split; assumption.
  - right. exists e. repeat split; [assumption |]. now rewrite Htr.
Qed.

(** One step of a run, then the run to its leaves: every call is answered
    by a value or by an exception, every test goes both ways. *)
Ltac spec_step :=
  first
    [ apply spec_ret
    | apply spec_eval
    | apply spec_raise; intros ?
    | apply spec_logging_info
    | apply spec_ext; intros [? | ?]
    | apply spec_bind ];
  cbv beta iota.

Ltac run :=
  repeat
    (first
       [ spec_step
       | progress unfold initialize_embeddings, get_pinecone_client, py_get
       | match goal with
         | |- spec (match ?x with _ => _ end) _ => destruct x eqn:?
         | |- spec (if ?b then _ else _) _ => destruct b eqn:?
         | |- match ?x with _ => _ end => destruct x eqn:?
         end ]).

(** *** Validation and errors *)

(** The two handlers, as [spec_try_except] sees them. *)
Lemma get_answer_outcome (Q : result HttpResponse -> list event -> Prop)
      (w : W) (req : HttpRequest) :
  spec (get_answer_body float_repr str_other service traceback_here req) Q ->
  let out := run_get_answer req (start w) in
  let first := "Get Answer function processed a request." in
  exists evs,
    (exists r, Q (Ok r) evs /\ fst out = r /\ trace (snd out) = LogInfo first :: evs)
    \/ (exists e,
          Q (Raise e) evs /\ fst out = server_error float_repr e
          /\ trace (snd out)
             = (LogInfo first :: evs
                  ++ [LogError ("Error generating answer: " ++ exn_str e)])%list).
Proof.
  intros Hbody.
  exact (spec_try_except (server_error float_repr)
           (fun e => "Error generating answer: " ++ exn_str e)
           "Get Answer function processed a request." w Hbody).
Qed.

Lemma process_document_outcome (Q : result HttpResponse -> list event -> Prop)
      (w : W) (req : HttpRequest) :
  spec (process_document_body float_repr split_text service traceback_here req) Q ->
  let out := run_process_document req (start w) in
  let first := "Process Document function processed a request." in
  exists evs,
    (exists r, Q (Ok r) evs /\ fst out = r /\ trace (snd out) = LogInfo first :: evs)
    \/ (exists e,
          Q (Raise e) evs /\ fst out = ingestion_error float_repr e
          /\ trace (snd out)
             = (LogInfo first :: evs
                  ++ [LogError ("Error processing document: " ++ exn_str e)])%list).
Proof.
  intros Hbody.
  exact (spec_try_except (ingestion_error float_repr)
           (fun e => "Error processing document: " ++ exn_str e)
           "Process Document function processed a request." w Hbody).
Qed.

(** [d.get(key, default)] is the default when the dict has no such key. *)
Lemma dict_get_absent (items : list (string * json)) (key : string) (default : json) :
  ~ In key (map fst items) -> dict_get items key default = default.
Proof.
  induction items as [| [k v] rest IH]; cbn; intros Habsent; [reflexivity |].
  destruct (String.eqb_spec k key) as [-> | Hneq].
  - exfalso. apply Habsent. now left.
  - apply IH. intros Hin. apply Habsent. now right.
Qed.

(** Whatever the outside answers, [get_answer] answers 400 only from the
    test on the query. *)
Lemma get_answer_body_status (req : HttpRequest) :
  spec (get_answer_body float_repr str_other service traceback_here req)
    (fun r _ =>
       match r with
       | Ok resp =>
           status_code resp = 400 ->
           exists items,
             get_json req = Ok (JObject items)
             /\ truthy (dict_get items "query" JNull) = false
       | Raise _ => True
       end).
Proof.
  unfold get_answer_body.
  run.
  all: try exact I.
  all: try (cbn; discriminate).
  intros _. exists items. split; [reflexivity |].
  now apply negb_true_iff.
Qed.

(** A run of [get_answer] on a dict whose query is falsy. *)
Lemma get_answer_falsy_query (req : HttpRequest) (w : W) (items : list (string * json)) :
  get_json req = Ok (JObject items) ->
  truthy (dict_get items "query" JNull) = false ->
  run_get_answer req (start w)
  = (bad_request float_repr,
     {| world := w; trace := [LogInfo "Get Answer function processed a request."] |}).
Proof.
  intros Hjson Hquery.
  unfold get_answer, try_except, get_answer_body, bind, eval, py_get, ret.
  rewrite Hjson. cbn. rewrite Hquery. reflexivity.
Qed.

(** A run of [process_document] on the empty text. *)
Lemma process_document_no_content (req : HttpRequest) (w : W) :
  get_body_decode req = Ok "" ->
  run_process_document req (start w)
  = ({| body := "No content received"; status_code := 400; mimetype := "text/plain" |},
     {| world := w;
        trace := [LogInfo "Process Document function processed a request.";
                  LogInfo "Content received: "] |}).
Proof.
  intros Hbody.
  unfold process_document, try_except, process_document_body, bind, eval.
  rewrite Hbody. reflexivity.
Qed.

(** C3. A [process_document] request whose body decodes to the empty
    string is answered with status 400, and the run makes no call to the
    outside: no embedding client is built, the vector store is not
    touched, nothing is upserted, and the world is left as it was. *)
Theorem process_document_empty_body (req : HttpRequest) (w : W) :
  get_body_decode req = Ok "" ->
  let out := run_process_document req (start w) in
  status_code (fst out) = 400
  /\ calls (snd out) = []
  /\ flat_map upserted (trace (snd out)) = []
  /\ world (snd out) = w.
Proof.
  intros Hbody out. subst out.
  rewrite (process_document_no_content req w Hbody).
  repeat split; reflexivity.
Qed.

(** C8, amended. A [get_answer] request whose JSON body is an object with no
    [query] field is answered with status 400 and the JSON body
    [{"error": "No query provided"}], and the run makes no call to the
    outside (no embedding, no retrieval, no chat completion). *)
Theorem get_answer_missing_query (req : HttpRequest) (w : W) (items : list (string * json)) :
  get_json req = Ok (JObject items) ->
  ~ In "query" (map fst items) ->
  let out := run_get_answer req (start w) in
  status_code (fst out) = 400
  /\ mimetype (fst out) = "application/json"
  /\ body (fst out) = json_dumps float_repr (JObject [("error", JString "No query provided")])
  /\ calls (snd out) = []
  /\ world (snd out) = w.
Proof.
  intros Hjson Habsent out. subst out.
  rewrite (get_answer_falsy_query req w Hjson).
  - repeat split; reflexivity.
  - now rewrite (@dict_get_absent items "query" JNull Habsent).
Qed.

(** C10. When [req.get_json()] raises (the body is not valid JSON),
    [get_answer] answers 500 with the body [{"error": str(e)}], after logging
    the error and without any call to the outside; and a 400 comes only from
    a body that parsed to a dict whose [query] is absent or falsy. *)
Theorem get_answer_invalid_json (req : HttpRequest) (w : W) :
  let out := run_get_answer req (start w) in
  (forall e,
      get_json req = Raise e ->
      status_code (fst out) = 500
      /\ mimetype (fst out) = "application/json"
      /\ body (fst out) = json_dumps float_repr (JObject [("error", JString (exn_str e))])
      /\ trace (snd out)
         = [LogInfo "Get Answer function processed a request.";
            LogError ("Error generating answer: " ++ exn_str e)])
  /\ (status_code (fst out) = 400 ->
      exists items,
        get_json req = Ok (JObject items)
        /\ truthy (dict_get items "query" JNull) = false).
Proof.
  intros out. split.
  - intros e Hjson. subst out.
    unfold get_answer, try_except, get_answer_body, bind, eval.
    rewrite Hjson. cbn. repeat split; reflexivity.
  - subst out.
    destruct (get_answer_outcome w (get_answer_body_status req))
      as (evs & [(r & HQ & Hfst & _) | (e & _ & Hfst & _)]).
    + rewrite Hfst. exact HQ.
    + rewrite Hfst. cbn. discriminate.
Qed.

(** C6, amended. Both validation errors are answered with status 400: the
    empty body of [process_document] with the plain text
    [No content received], and a [get_answer] body that is a JSON object
    whose [query] is missing or falsy with the JSON body
    [{"error": "No query provided"}]. *)
Theorem validation_errors_are_400 (req : HttpRequest) (w : W) :
  (get_body_decode req = Ok "" ->
   fst (run_process_document req (start w))
   = {| body := "No content received"; status_code := 400; mimetype := "text/plain" |})
  /\ (forall items,
        get_json req = Ok (JObject items) ->
        truthy (dict_get items "query" JNull) = false ->
        fst (run_get_answer req (start w))
        = {| body := json_dumps float_repr (JObject [("error", JString "No query provided")]);
             status_code := 400;
             mimetype := "application/json" |}).
Proof.
  split.
  - intros Hbody. now rewrite (process_document_no_content req w Hbody).
  - intros items Hjson Hquery. now rewrite (get_answer_falsy_query req w Hjson Hquery).
Qed.

(** C7. When the body of [process_document] raises [e], the answer has
    status 500 and a JSON body with the three keys [error], [type] and
    [trace]: [str(e)], the name of the type of [e], and [str] of the
    traceback object, which shows its address and none of its frames.  The
    error line is the last thing logged: the response is built after it. *)
Theorem process_document_exception (req : HttpRequest) (st0 st1 : state W) (e : exn) :
  process_document_body float_repr split_text service traceback_here req
    (record (LogInfo "Process Document function processed a request.") st0)
  = (Raise e, st1) ->
  let out := run_process_document req st0 in
  status_code (fst out) = 500
  /\ mimetype (fst out) = "application/json"
  /\ body (fst out)
     = json_dumps float_repr
         (JObject
            [("error", JString (exn_str e));
             ("type", JString (exn_type_name e));
             ("trace",
              JString ("<traceback object at 0x"
                         ++ HexadecimalString.NilZero.string_of_uint
                              (N.to_hex_uint (tb_address (exn_traceback e)))
                         ++ ">"))])
  /\ trace (snd out)
     = (trace st1 ++ [LogError ("Error processing document: " ++ exn_str e)])%list
  /\ world (snd out) = world st1.
Proof.
  intros Hbody out. subst out.
  unfold process_document, try_except. rewrite Hbody.
  repeat split; reflexivity.
Qed.

(** *** Retrieval *)

(** What [get_answer] does with the results of the search, whatever else
    the outside answers. *)
Lemma get_answer_body_retrieval (req : HttpRequest) :
  spec (get_answer_body float_repr str_other service traceback_here req)
    (fun r evs =>
       forall results,
         flat_map retrieved evs = [results] ->
         match kept results with
         | [] =>
             r = Ok (no_match float_repr (request_query req) (List.length results))
             /\ filter is_chat_completion evs = []
         | _ :: _ =>
             forall resp,
               r = Ok resp ->
               exists answer, resp = answered float_repr answer (kept results)
         end).
Proof.
  unfold get_answer_body.
  run.
  all: intros results Hret; cbn in Hret; try discriminate Hret.
  all: injection Hret as <-; unfold kept.
  all: match goal with H : filter _ _ = _ |- _ => rewrite H end.
  all: try (intros resp Hresp; try discriminate Hresp; injection Hresp as <-;
            eexists; reflexivity).
  split; [| reflexivity].
  unfold request_query. now rewrite Heqr.
Qed.

(** The log lines carry no result of a search and no chat completion. *)
Lemma retrieved_handler_trace (first : string) (evs : list event) (last : list event) :
  flat_map retrieved last = [] ->
  flat_map retrieved (LogInfo first :: evs ++ last) = flat_map retrieved evs.
Proof.
  intros Hlast. cbn. rewrite flat_map_app, Hlast. apply app_nil_r.
Qed.

Lemma kept_none (results : list (Document * float)) :
  (forall ds, In ds results -> PrimFloat.ltb score_threshold (snd ds) = false) ->
  kept results = [].
Proof.
  induction results as [| ds rest IH]; intros Hall; [reflexivity |].
  unfold kept. cbn [filter]. rewrite (Hall ds (or_introl eq_refl)).
  apply IH. intros ds' Hin. apply Hall. now right.
Qed.

(** C2. When the search returned [results] and none of them scores above
    0.7 (no result at all included), [get_answer] answers 200 with the
    canned answer and the metadata: the query of the request and the
    number of results before filtering; the run holds no chat completion. *)
Theorem get_answer_no_match (req : HttpRequest) (w : W) (results : list (Document * float)) :
  let out := run_get_answer req (start w) in
  flat_map retrieved (trace (snd out)) = [results] ->
  (forall ds, In ds results -> PrimFloat.ltb 0.7%float (snd ds) = false) ->
  status_code (fst out) = 200
  /\ mimetype (fst out) = "application/json"
  /\ body (fst out)
     = json_dumps float_repr
         (JObject
            [("answer",
              JString "I couldn't find any relevant information to answer your question.");
             ("metadata",
              JObject [("query", request_query req);
                       ("documents_found", JInt (Z.of_nat (List.length results)))])])
  /\ filter is_chat_completion (trace (snd out)) = [].
Proof.
  intros out Hret Hscores. subst out.
  destruct (get_answer_outcome w (get_answer_body_retrieval req))
    as (evs & [(r & HQ & Hfst & Htr) | (e & HQ & Hfst & Htr)]);
    rewrite Htr in Hret |- *.
  - cbn in Hret. specialize (HQ results Hret).
    rewrite (kept_none results Hscores) in HQ. destruct HQ as [Hr Hchat].
    injection Hr as Hr. rewrite Hfst, Hr. cbn. now rewrite Hchat.
  - rewrite retrieved_handler_trace in Hret by reflexivity.
    specialize (HQ results Hret).
    rewrite (kept_none results Hscores) in HQ. destruct HQ as [Hr _]. discriminate Hr.
Qed.

(** Comparison of floats: the two orders exclude each other. *)
Lemma SFcompare_antisym (x y : SpecFloat.spec_float) :
  SpecFloat.SFcompare y x = option_map CompOpp (SpecFloat.SFcompare x y).
Proof.
  destruct x as [sx | sx | | sx mx ex], y as [sy | sy | | sy my ey]; cbn;
    try reflexivity;
    try (destruct sx; reflexivity);
    try (destruct sy; reflexivity);
    try (destruct sx, sy; reflexivity).
  destruct sx, sy; cbn; try reflexivity.
  - rewrite (Z.compare_antisym ex ey).
    destruct (ex ?= ey)%Z; cbn; try reflexivity.
    now rewrite (Pos.compare_cont_antisym mx my Eq).
  - rewrite (Z.compare_antisym ex ey).
    destruct (ex ?= ey)%Z; cbn; try reflexivity.
    now rewrite (Pos.compare_cont_antisym mx my Eq).
Qed.

Lemma leb_not_ltb (x y : float) :
  PrimFloat.leb x y = true -> PrimFloat.ltb y x = false.
Proof.
  rewrite leb_spec, ltb_spec. unfold SpecFloat.SFleb, SpecFloat.SFltb.
  rewrite (SFcompare_antisym (Prim2SF x) (Prim2SF y)).
  destruct (SpecFloat.SFcompare (Prim2SF x) (Prim2SF y)) as [[| |] |]; cbn;
    intros H; (reflexivity || discriminate H).
Qed.

(** C1. When the search returned [results] and [get_answer] answers 200
    with some of them above 0.7, the results it keeps are exactly those
    that score above 0.7, in the order of retrieval: they, and only they,
    make up the context (joined by blank lines) and the [similar_docs]
    entries [{content, score}]; a result scoring 0.7 or less is not kept.
    For the scores 0.9, 0.75 and 0.6 the first two are kept and the third
    is not. *)
Theorem get_answer_keeps_above_threshold
        (req : HttpRequest) (w : W) (results : list (Document * float)) :
  let out := run_get_answer req (start w) in
  let hits := filter (fun ds => PrimFloat.ltb 0.7%float (snd ds)) results in
  flat_map retrieved (trace (snd out)) = [results] ->
  status_code (fst out) = 200 ->
  hits <> [] ->
  (exists answer,
      body (fst out)
      = json_dumps float_repr
          (JObject
             [("answer", JString answer);
              ("context", JString (join nlnl (map (fun ds => page_content (fst ds)) hits)));
              ("similar_docs",
               JArray (map (fun ds => JObject [("content", JString (page_content (fst ds)));
                                               ("score", JFloat (snd ds))])
                           hits))]))
  /\ (forall ds, In ds hits <-> In ds results /\ PrimFloat.ltb 0.7%float (snd ds) = true)
  /\ (forall ds, In ds results -> PrimFloat.leb (snd ds) 0.7%float = true -> ~ In ds hits)
  /\ (forall d1 d2 d3 : Document,
        filter (fun ds => PrimFloat.ltb 0.7%float (snd ds))
          [(d1, 0.9%float); (d2, 0.75%float); (d3, 0.6%float)]
        = [(d1, 0.9%float); (d2, 0.75%float)]).
Proof.
  intros out hits Hret Hstatus Hhits.
  assert (Hin : forall ds, In ds hits <-> In ds results /\ PrimFloat.ltb 0.7%float (snd ds) = true).
  { intros ds. subst hits. apply filter_In. }
  split; [| split; [exact Hin | split]].
  - subst out.
    destruct (get_answer_outcome w (get_answer_body_retrieval req))
      as (evs & [(r & HQ & Hfst & Htr) | (e & HQ & Hfst & Htr)]);
      rewrite Htr in Hret.
    + cbn in Hret. specialize (HQ results Hret).
      change (kept results) with hits in HQ.
      destruct hits as [| hit others]; [now elim Hhits |].
      destruct (HQ r eq_refl) as (answer & Hr).
      exists answer. now rewrite Hfst, Hr.
    + rewrite Hfst in Hstatus. discriminate Hstatus.
  - intros ds _ Hle [_ Habove]%Hin.
    rewrite (leb_not_ltb Hle) in Habove. discriminate Habove.
  - intros d1 d2 d3. reflexivity.
Qed.

(** *** Ingestion *)

Lemma enumerate_from_length {A : Type} (xs : list A) (i : Z) :
  List.length (enumerate_from i xs) = List.length xs.
Proof.
  revert i. induction xs as [| x rest IH]; intros i; cbn; [reflexivity |].
  now rewrite IH.
Qed.

(** The comprehension reads the clock once per chunk and calls nothing
    else. *)
Lemma make_docs_spec (indexed : list (Z * string)) :
  spec (make_docs service indexed)
    (fun r evs =>
       flat_map upserted evs = []
       /\ match r with
          | Ok docs =>
              docs = zip_docs indexed (flat_map clock_read evs)
              /\ List.length (flat_map clock_read evs) = List.length indexed
          | Raise _ => True
          end).
Proof.
  induction indexed as [| [i t] rest IH]; cbn [make_docs].
  - apply spec_ret. cbn. auto.
  - apply spec_bind, spec_ext. intros [now | e]; [| cbn; auto].
    apply spec_bind. eapply spec_weaken; [exact IH |].
    intros [docs | e] evs [Hups Hdocs]; [| cbn; auto].
    apply spec_ret. destruct Hdocs as [-> Hlen].
    cbn. rewrite app_nil_r. rewrite Hups, Hlen. auto.
Qed.

Lemma process_document_body_success (req : HttpRequest) :
  spec (process_document_body float_repr split_text service traceback_here req)
    (fun r evs =>
       match r with
       | Ok resp =>
           status_code resp = 200 ->
           exists content,
             let texts := split_text 1000 200 [nlnl; nl; " "; ""] content in
             let nows := flat_map clock_read evs in
             get_body_decode req = Ok content
             /\ content <> ""
             /\ List.length nows = List.length texts
             /\ flat_map upserted evs = [zip_docs (enumerate texts) nows]
             /\ resp = success float_repr (List.length (zip_docs (enumerate texts) nows))
       | Raise _ => True
       end).
Proof.
  unfold process_document_body.
  run.
  all: try exact I.
  all: try (cbn; discriminate).
  eapply spec_weaken; [apply make_docs_spec |].
  intros [docs | e] evs [Hups Hdocs]; [| exact I].
  destruct Hdocs as [Hdocs Hlen].
  run.
  all: try exact I.
  all: intros _; exists a; cbv zeta.
  all: rewrite !flat_map_app; cbn [flat_map app upserted clock_read];
    rewrite ?app_nil_r, ?Hups.
  all: unfold enumerate in Hlen; rewrite enumerate_from_length in Hlen.
  all: subst docs; repeat split; try assumption; try reflexivity.
  all: now apply String.eqb_neq.
Qed.

Lemma process_document_success (req : HttpRequest) (w : W) :
  let out := run_process_document req (start w) in
  status_code (fst out) = 200 ->
  exists content,
    let texts := split_text 1000 200 [nlnl; nl; " "; ""] content in
    let nows := flat_map clock_read (trace (snd out)) in
    get_body_decode req = Ok content
    /\ content <> ""
    /\ List.length nows = List.length texts
    /\ flat_map upserted (trace (snd out)) = [zip_docs (enumerate texts) nows]
    /\ fst out = success float_repr (List.length (zip_docs (enumerate texts) nows)).
Proof.
  intros out Hstatus. subst out.
  destruct (process_document_outcome w (process_document_body_success req))
    as (evs & [(r & HQ & Hfst & Htr) | (e & _ & Hfst & _)]).
  - rewrite Hfst in Hstatus |- *. rewrite Htr.
    destruct (HQ Hstatus) as (content & Hspec). now exists content.
  - rewrite Hfst in Hstatus. discriminate Hstatus.
Qed.

Lemma zip_docs_length (indexed : list (Z * string)) (nows : list string) :
  List.length nows = List.length indexed ->
  List.length (zip_docs indexed nows) = List.length indexed.
Proof.
  revert nows. induction indexed as [| [i t] rest IH]; intros [| now nows] Hlen;
    cbn in *; try reflexivity; try discriminate Hlen.
  f_equal. apply IH. now injection Hlen.
Qed.

Lemma zip_docs_page_content (texts : list string) (nows : list string) (i : Z) :
  List.length nows = List.length texts ->
  map page_content (zip_docs (enumerate_from i texts) nows) = texts.
Proof.
  revert nows i. induction texts as [| t rest IH]; intros [| now nows] i Hlen;
    cbn in *; try reflexivity; try discriminate Hlen.
  f_equal. apply IH. now injection Hlen.
Qed.

(** The document at position [k] carries the [k]-th chunk, the [k]-th index
    and the [k]-th reading of the clock. *)
Lemma zip_docs_nth (texts : list string) (nows : list string) (i : Z) (k : nat) (d : Document) :
  nth_error (zip_docs (enumerate_from i texts) nows) k = Some d ->
  exists t now,
    nth_error texts k = Some t
    /\ nth_error nows k = Some now
    /\ d = chunk_document (i + Z.of_nat k) t now.
Proof.
  revert nows i k. induction texts as [| t rest IH]; intros [| now nows] i [| k] Hnth;
    cbn in Hnth; try discriminate Hnth.
  - injection Hnth as <-. exists t, now. rewrite Z.add_0_r. now repeat split.
  - destruct (IH nows (i + 1)%Z k Hnth) as (t' & now' & Ht & Hnow & ->).
    exists t', now'. repeat split; try assumption.
    f_equal. lia.
Qed.

(** C9. When [process_document] answers 200, the body was a non-empty text
    and one batch of documents was upserted: one document per chunk of the
    splitter, in split order, the document at position [k] (from 0) having
    [chunk_index] [k] and as [upload_date] the string the clock gave for it;
    the body of the answer is [{"status": "success", "chunks_processed": n}]
    with [n] the number of documents upserted. *)
Theorem process_document_chunks (req : HttpRequest) (w : W) :
  let out := run_process_document req (start w) in
  status_code (fst out) = 200 ->
  exists content docs,
    let texts := split_text 1000 200 [nlnl; nl; " "; ""] content in
    get_body_decode req = Ok content
    /\ content <> ""
    /\ flat_map upserted (trace (snd out)) = [docs]
    /\ List.length docs = List.length texts
    /\ map page_content docs = texts
    /\ (forall k d,
          nth_error docs k = Some d ->
          dict_get (metadata d) "chunk_index" JNull = JInt (Z.of_nat k)
          /\ exists now,
              nth_error (flat_map clock_read (trace (snd out))) k = Some now
              /\ dict_get (metadata d) "upload_date" JNull = JString now)
    /\ mimetype (fst out) = "application/json"
    /\ body (fst out)
       = json_dumps float_repr
           (JObject [("status", JString "success");
                     ("chunks_processed", JInt (Z.of_nat (List.length docs)))]).
Proof.
  intros out Hstatus.
  destruct (process_document_success req w Hstatus)
    as (content & Hbody & Hcontent & Hlen & Hups & Hfst).
  fold out in Hlen, Hups, Hfst.
  set (texts := split_text 1000 200 [nlnl; nl; " "; ""] content) in *.
  set (nows := flat_map clock_read (trace (snd out))) in *.
  exists content, (zip_docs (enumerate texts) nows).
  cbv zeta. fold texts.
  repeat split; try assumption.
  - rewrite zip_docs_length; unfold enumerate; now rewrite enumerate_from_length.
  - now apply zip_docs_page_content.
  - destruct (zip_docs_nth _ _ _ _ H) as (t & now & _ & _ & ->). reflexivity.
  - destruct (zip_docs_nth _ _ _ _ H) as (t & now & _ & Hnow & ->).
    exists now. now split.
  - now rewrite Hfst.
  - now rewrite Hfst.
Qed.

End Properties.

(** ** The handlers in front of the test double *)

Lemma process_document_empty_body_witness :
  let out := mock_process_document no_keys (Mock.text_request "") in
  status_code (fst out) = 400
  /\ calls (snd out) = []
  /\ flat_map upserted (trace (snd out)) = []
  /\ world (snd out) = 0%nat.
Proof.
  exact (process_document_empty_body Mock.float_repr LangChain.split_text
           (Mock.service no_keys) Mock.traceback_here (Mock.text_request "") 0%nat eq_refl).
Defined.

Lemma get_answer_missing_query_witness :
  let out := mock_get_answer no_keys
               (Mock.json_request (JObject [("system_prompt", JString "Be brief.")])) in
  status_code (fst out) = 400
  /\ mimetype (fst out) = "application/json"
  /\ body (fst out) = "{" ++ quoted "error" ++ ": " ++ quoted "No query provided" ++ "}"
  /\ calls (snd out) = []
  /\ world (snd out) = 0%nat.
Proof.
  refine (get_answer_missing_query Mock.float_repr Mock.str_other
            (Mock.service no_keys) Mock.traceback_here
            (Mock.json_request (JObject [("system_prompt", JString "Be brief.")]))
            0%nat (items := [("system_prompt", JString "Be brief.")]) eq_refl _).
  cbn. intros [Heq | []]. discriminate Heq.
Defined.

(** C8 as stated fails on a JSON body that is not an object: the list [[]]
    has no [query] field, and the answer is 500, not 400, since a list has
    no [get]. *)
Lemma get_answer_list_body_is_500 :
  let req := Mock.json_request (JArray []) in
  let out := mock_get_answer (Mock.ready Mock.three_hits) req in
  get_json req = Ok (JArray [])
  /\ lacks_field (JArray []) "query" = true
  /\ status_code (fst out) = 500
  /\ status_code (fst out) <> 400
  /\ body (fst out)
     = "{" ++ quoted "error" ++ ": " ++ quoted "'list' object has no attribute 'get'" ++ "}".
Proof.
  repeat split. vm_compute. discriminate.
Qed.

Lemma get_answer_invalid_json_witness :
  let out := mock_get_answer (Mock.ready Mock.three_hits) (Mock.bad_json_request "") in
  status_code (fst out) = 500
  /\ mimetype (fst out) = "application/json"
  /\ body (fst out)
     = json_dumps Mock.float_repr
         (JObject [("error", JString "Expecting value: line 1 column 1 (char 0)")])
  /\ trace (snd out)
     = [LogInfo "Get Answer function processed a request.";
        LogError "Error generating answer: Expecting value: line 1 column 1 (char 0)"].
Proof.
  exact (proj1 (get_answer_invalid_json Mock.float_repr Mock.str_other
                  (Mock.service (Mock.ready Mock.three_hits)) Mock.traceback_here
                  (Mock.bad_json_request "") 0%nat)
               _ eq_refl).
Defined.

Lemma validation_errors_are_400_witness :
  fst (mock_process_document no_keys (Mock.text_request ""))
  = {| body := "No content received"; status_code := 400; mimetype := "text/plain" |}
  /\ fst (mock_get_answer no_keys (ask ""))
     = {| body := "{" ++ quoted "error" ++ ": " ++ quoted "No query provided" ++ "}";
          status_code := 400;
          mimetype := "application/json" |}.
Proof.
  split.
  - exact (proj1 (validation_errors_are_400 Mock.float_repr Mock.str_other
                    LangChain.split_text (Mock.service no_keys) Mock.traceback_here
                    (Mock.text_request "") 0%nat)
                 eq_refl).
  - exact (proj2 (validation_errors_are_400 Mock.float_repr Mock.str_other
                    LangChain.split_text (Mock.service no_keys) Mock.traceback_here
                    (ask "") 0%nat)
                 [("query", JString "")] eq_refl eq_refl).
Defined.

(** C6 as stated fails on [process_document]: the 400 of the empty body is
    plain text, not JSON.  Its mimetype is [text/plain] and no JSON object
    is spelled [No content received].  It fails on [get_answer] too when the
    body is not an object: the list [[]] has no [query], and the answer is
    500. *)
Lemma process_document_400_is_plain_text :
  let out := mock_process_document no_keys (Mock.text_request "") in
  let refused := mock_get_answer no_keys (Mock.json_request (JArray [])) in
  status_code (fst out) = 400
  /\ mimetype (fst out) = "text/plain"
  /\ mimetype (fst out) <> "application/json"
  /\ body (fst out) = "No content received"
  /\ (forall float_repr items, json_dumps float_repr (JObject items) <> body (fst out))
  /\ request_query (Mock.json_request (JArray [])) = JNull
  /\ lacks_field (JArray []) "query" = true
  /\ status_code (fst refused) = 500.
Proof.
  repeat split; try discriminate.
Qed.

Lemma process_document_exception_witness :
  let out := process_document Mock.float_repr LangChain.split_text (Mock.service no_keys)
               Mock.traceback_here (Mock.text_request "hello") (start 0%nat) in
  status_code (fst out) = 500
  /\ body (fst out)
     = "{" ++ quoted "error" ++ ": "
           ++ quoted "OPENAI_API_KEY not found in environment variables" ++ ", "
           ++ quoted "type" ++ ": " ++ quoted "ValueError" ++ ", "
           ++ quoted "trace" ++ ": " ++ quoted "<traceback object at 0x7f0000000000>" ++ "}"
  /\ last (trace (snd out)) (LogInfo "")
     = LogError "Error processing document: OPENAI_API_KEY not found in environment variables".
Proof.
  pose proof
    (process_document_exception Mock.float_repr LangChain.split_text
       (Mock.service no_keys) Mock.traceback_here (Mock.text_request "hello") (start 0%nat)
       (st1 := {| world := 1%nat;
                  trace :=
                    [LogInfo "Process Document function processed a request.";
                     LogInfo "Content received: hello";
                     Called datetime_now_str (Ok "2024-05-01 12:00:00.000000");
                     Called (os_getenv "OPENAI_API_KEY") (Ok None)] |})
       (e := Exn "ValueError" "OPENAI_API_KEY not found in environment variables"
               (Mock.traceback_here 1%nat))
       eq_refl) as (Hstatus & _ & Hbody & Htrace & _).
  split; [exact Hstatus |]. split; [exact Hbody |].
  rewrite Htrace. reflexivity.
Defined.

Lemma get_answer_no_match_witness :
  let out := mock_get_answer (Mock.ready Mock.three_misses) (ask "x") in
  status_code (fst out) = 200
  /\ mimetype (fst out) = "application/json"
  /\ body (fst out)
     = json_dumps Mock.float_repr
         (JObject
            [("answer",
              JString "I couldn't find any relevant information to answer your question.");
             ("metadata",
              JObject [("query", JString "x"); ("documents_found", JInt 3)])])
  /\ filter is_chat_completion (trace (snd out)) = [].
Proof.
  refine (get_answer_no_match Mock.float_repr Mock.str_other
            (Mock.service (Mock.ready Mock.three_misses)) Mock.traceback_here
            (ask "x") 0%nat (results := Mock.three_misses) eq_refl _).
  intros ds [<- | [<- | [<- | []]]]; reflexivity.
Defined.

Lemma get_answer_keeps_above_threshold_witness :
  let out := mock_get_answer (Mock.ready Mock.three_hits) (ask "x") in
  flat_map retrieved (trace (snd out)) = [Mock.three_hits]
  /\ status_code (fst out) = 200
  /\ exists answer,
      body (fst out)
      = json_dumps Mock.float_repr
          (JObject
             [("answer", JString answer);
              ("context", JString ("alpha" ++ nlnl ++ "beta"));
              ("similar_docs",
               JArray [JObject [("content", JString "alpha"); ("score", JFloat 0.9%float)];
                       JObject [("content", JString "beta"); ("score", JFloat 0.75%float)]])]).
Proof.
  split; [reflexivity |]. split; [reflexivity |].
  refine (proj1 (get_answer_keeps_above_threshold Mock.float_repr Mock.str_other
                   (Mock.service (Mock.ready Mock.three_hits)) Mock.traceback_here
                   (ask "x") 0%nat (results := Mock.three_hits) eq_refl eq_refl _)).
  discriminate.
Defined.

Lemma process_document_chunks_witness :
  let out := mock_process_document (Mock.ready []) (Mock.text_request "hello world") in
  status_code (fst out) = 200
  /\ exists docs,
      flat_map upserted (trace (snd out)) = [docs]
      /\ map page_content docs = ["hello world"]
      /\ body (fst out)
         = "{" ++ quoted "status" ++ ": " ++ quoted "success" ++ ", "
               ++ quoted "chunks_processed" ++ ": 1}".
Proof.
  split; [reflexivity |].
  destruct (process_document_chunks Mock.float_repr LangChain.split_text
              (Mock.service (Mock.ready [])) Mock.traceback_here
              (Mock.text_request "hello world") 0%nat eq_refl)
    as (content & docs & Hbody & _ & Hups & Hlen & Htexts & _ & _ & Hresp).
  injection Hbody as <-.
  exists docs. split; [exact Hups |]. split; [exact Htexts |].
  unfold mock_process_document. rewrite Hresp, Hlen. reflexivity.
Defined.

(** *** The 1500-character document *)

Lemma split_text_1500_A :
  LangChain.split_text 1000 200 separators (str_mul "A" 1500)
  = [str_mul "A" 1000; str_mul "A" 700].
Proof.
  vm_compute. reflexivity.
Qed.

(** C4. For the body ["A" * 1500] the splitter (chunk size 1000, overlap
    200) gives two chunks, of 1000 and of 700 characters; when the ingestion
    succeeds, the documents upserted are these two with [chunk_index] 0 and
    1, and the body of the answer is
    [{"status": "success", "chunks_processed": 2}]. *)
Theorem process_document_1500_A
        (float_repr : float -> string) (W : Type)
        (service : forall A : Type, call A -> W -> result A * W)
        (traceback_here : W -> traceback) (req : HttpRequest) (w : W) :
  get_body_decode req = Ok (str_mul "A" 1500) ->
  let out :=
    process_document float_repr LangChain.split_text service traceback_here req (start w) in
  LangChain.split_text 1000 200 [nlnl; nl; " "; ""] (str_mul "A" 1500)
  = [str_mul "A" 1000; str_mul "A" 700]
  /\ (status_code (fst out) = 200 ->
      (exists now0 now1,
          flat_map upserted (trace (snd out))
          = [[{| page_content := str_mul "A" 1000;
                 metadata := [("chunk_index", JInt 0); ("upload_date", JString now0)] |};
              {| page_content := str_mul "A" 700;
                 metadata := [("chunk_index", JInt 1); ("upload_date", JString now1)] |}]])
      /\ body (fst out)
         = json_dumps float_repr
             (JObject [("status", JString "success"); ("chunks_processed", JInt 2)])
      /\ body (fst out)
         = "{" ++ quoted "status" ++ ": " ++ quoted "success" ++ ", "
               ++ quoted "chunks_processed" ++ ": 2}").
Proof.
  intros Hbody out. split; [exact split_text_1500_A |].
  intros Hstatus.
  destruct (process_document_success float_repr LangChain.split_text service
              traceback_here req w Hstatus)
    as (content & Hcontent & _ & Hlen & Hups & Hfst).
  fold out in Hlen, Hups, Hfst.
  assert (Heq : content = str_mul "A" 1500) by congruence. subst content.
  change [nlnl; nl; " "; ""] with separators in Hlen, Hups, Hfst.
  rewrite split_text_1500_A in Hlen, Hups, Hfst.
  destruct (flat_map clock_read (trace (snd out))) as [| now0 [| now1 [| ? ?]]];
    try discriminate Hlen.
  split; [exists now0, now1; exact Hups |].
  rewrite Hfst. split; reflexivity.
Qed.

Lemma process_document_1500_A_witness :
  let out := mock_process_document (Mock.ready []) (Mock.text_request (str_mul "A" 1500)) in
  status_code (fst out) = 200
  /\ flat_map upserted (trace (snd out))
     = [[{| page_content := str_mul "A" 1000;
            metadata := [("chunk_index", JInt 0);
                         ("upload_date", JString "2024-05-01 12:00:00.000000")] |};
         {| page_content := str_mul "A" 700;
            metadata := [("chunk_index", JInt 1);
                         ("upload_date", JString "2024-05-01 12:00:00.000001")] |}]]
  /\ body (fst out)
     = "{" ++ quoted "status" ++ ": " ++ quoted "success" ++ ", "
           ++ quoted "chunks_processed" ++ ": 2}".
Proof.
  assert (Hstatus : status_code
                      (fst (mock_process_document (Mock.ready [])
                              (Mock.text_request (str_mul "A" 1500)))) = 200)
    by (vm_compute; reflexivity).
  destruct (process_document_1500_A Mock.float_repr (Mock.service (Mock.ready []))
              Mock.traceback_here (Mock.text_request (str_mul "A" 1500)) 0%nat eq_refl)
    as [_ Hrun].
  destruct (Hrun Hstatus) as (_ & _ & Hresp).
  split; [exact Hstatus |]. split; [vm_compute; reflexivity | exact Hresp].
Defined.


(** ** Properties of the splitter *)

Section SplitterFacts.

Import LangChain.

(** *** Strings *)

Lemma append_nil_r (s : string) : s ++ "" = s.
Proof. induction s as [| c s IH]; cbn; [reflexivity | now rewrite IH]. Qed.

Lemma append_assoc (s1 s2 s3 : string) : (s1 ++ s2) ++ s3 = s1 ++ s2 ++ s3.
Proof. induction s1 as [| c s1 IH]; cbn; [reflexivity | now rewrite IH]. Qed.

Lemma length_append (s1 s2 : string) :
  String.length (s1 ++ s2) = (String.length s1 + String.length s2)%nat.
Proof. induction s1 as [| c s1 IH]; cbn; [reflexivity | now rewrite IH]. Qed.

Lemma join_empty_cons (p : string) (rest : list string) :
  join "" (p :: rest) = p ++ join "" rest.
Proof.
  destruct rest as [| q rest]; cbn; [now rewrite append_nil_r | reflexivity].
Qed.

Lemma join_empty_app (l1 l2 : list string) :
  join "" (l1 ++ l2) = join "" l1 ++ join "" l2.
Proof.
  induction l1 as [| p l1 IH]; [reflexivity |].
  rewrite <- app_comm_cons, !join_empty_cons, IH. now rewrite append_assoc.
Qed.

Lemma str_drop_append (s1 s2 : string) :
  str_drop (String.length s1) (s1 ++ s2) = s2.
Proof. induction s1 as [| c s1 IH]; cbn; [reflexivity | exact IH]. Qed.

Lemma str_drop_append_le (n : nat) (s1 s2 : string) :
  (n <= String.length s1)%nat -> str_drop n (s1 ++ s2) = str_drop n s1 ++ s2.
Proof.
  revert s1. induction n as [| n IH]; intros s1 Hn; [reflexivity |].
  destruct s1 as [| c s1]; cbn in *; [lia |]. apply IH. lia.
Qed.

(** White space. *)
Lemma no_whitespace_append (s1 s2 : string) :
  no_whitespace (s1 ++ s2) = no_whitespace s1 && no_whitespace s2.
Proof.
  induction s1 as [| c s1 IH]; cbn; [reflexivity |]. now rewrite IH, andb_assoc.
Qed.

Lemma lstrip_no_whitespace (s : string) : no_whitespace s = true -> lstrip s = s.
Proof.
  destruct s as [| c s]; cbn; [reflexivity |].
  intros [Hc _]%andb_prop. apply negb_true_iff in Hc. now rewrite Hc.
Qed.

Lemma rstrip_no_whitespace (s : string) : no_whitespace s = true -> rstrip s = s.
Proof.
  induction s as [| c s IH]; cbn; [reflexivity |].
  intros [Hc Hs]%andb_prop. apply negb_true_iff in Hc.
  rewrite (IH Hs), Hc. now destruct s.
Qed.

Lemma strip_no_whitespace (s : string) : no_whitespace s = true -> strip s = s.
Proof.
  intros Hs. unfold strip. rewrite (lstrip_no_whitespace s Hs).
  now apply rstrip_no_whitespace.
Qed.

(** *** A text without white space *)

Lemma contains_no_whitespace (c : ascii) (r s : string) :
  isspace c = true -> no_whitespace s = true -> contains (String c r) s = false.
Proof.
  intros Hc. induction s as [| a s IH]; [reflexivity |].
  intros [Ha Hs]%andb_prop. cbn [contains prefix].
  destruct (ascii_dec c a) as [-> | _].
  - rewrite Hc in Ha. discriminate Ha.
  - now apply IH.
Qed.

Lemma chars_letters (s : string) : no_whitespace s = true -> Forall letter (chars s).
Proof.
  induction s as [| c s IH]; cbn; [constructor |].
  intros [Hc Hs]%andb_prop. constructor; [| now apply IH].
  split; [reflexivity |]. cbn. now rewrite Hc.
Qed.

Lemma chars_nonempty (s : string) : filter nonempty (chars s) = chars s.
Proof.
  induction s as [| c s IH]; cbn; [reflexivity | now rewrite IH].
Qed.

Lemma chars_length (s : string) : List.length (chars s) = String.length s.
Proof.
  induction s as [| c s IH]; cbn; [reflexivity | now rewrite IH].
Qed.

Lemma letters_join_length (l : list string) :
  Forall letter l -> String.length (join "" l) = List.length l.
Proof.
  induction 1 as [| p l [Hp _] _ IH]; [reflexivity |].
  rewrite join_empty_cons, length_append, Hp, IH. reflexivity.
Qed.

Lemma letters_join_no_whitespace (l : list string) :
  Forall letter l -> no_whitespace (join "" l) = true.
Proof.
  induction 1 as [| p l [_ Hp] _ IH]; [reflexivity |].
  now rewrite join_empty_cons, no_whitespace_append, Hp, IH.
Qed.

Lemma letters_join_docs (l : list string) :
  Forall letter l -> l <> [] -> _join_docs l "" = Some (join "" l).
Proof.
  intros Hl Hne. unfold _join_docs.
  rewrite (strip_no_whitespace _ (letters_join_no_whitespace Hl)).
  pose proof (letters_join_length Hl) as Hlen.
  destruct (join "" l) as [| c t]; [| reflexivity].
  destruct l; [now elim Hne | discriminate Hlen].
Qed.

Lemma sep_if_0 (b : bool) : sep_if b 0 = 0%Z.
Proof. now destruct b. Qed.

(** With pieces of one character and no separator, the [while] loop keeps
    the last 200 pieces. *)
Lemma drop_front_letters (cur : list string) :
  Forall letter cur ->
  (200 <= List.length cur <= 1000)%nat ->
  drop_front 1000 200 0 1 cur (Z.of_nat (List.length cur))
  = (skipn (List.length cur - 200) cur, 200%Z).
Proof.
  induction 1 as [| p cur [Hp _] Hcur IH]; intros Hlen; cbn [List.length] in *; [lia |].
  cbn [drop_front]. rewrite sep_if_0. unfold len. rewrite Hp.
  destruct (Nat.eq_dec (List.length cur) 199) as [E | E].
  - rewrite E. cbn. reflexivity.
  - replace (200 <? Z.of_nat (S (List.length cur)))%Z with true
      by (symmetry; apply Z.ltb_lt; lia).
    cbn [orb].
    replace (Z.of_nat (S (List.length cur)) - (Z.of_nat 1 + 0))%Z
      with (Z.of_nat (List.length cur)) by lia.
    rewrite IH by lia.
    replace (S (List.length cur) - 200)%nat with (S (List.length cur - 200)) by lia.
    reflexivity.
Qed.

Lemma letter_len (d : string) : letter d -> len d = 1%Z.
Proof. intros [Hd _]. unfold len. now rewrite Hd. Qed.

(** One turn of the [for] loop while the chunk has room. *)
Lemma merge_loop_room (d : string) (rest docs cur : list string) :
  letter d ->
  (List.length cur < 1000)%nat ->
  merge_loop 1000 200 "" (d :: rest) docs cur (Z.of_nat (List.length cur))
  = merge_loop 1000 200 "" rest docs (cur ++ [d])
      (Z.of_nat (List.length (cur ++ [d]))).
Proof.
  intros Hd Hlen. cbn [merge_loop].
  change (len "") with 0%Z. rewrite !sep_if_0, (letter_len Hd).
  replace (1000 <? Z.of_nat (List.length cur) + 1 + 0)%Z with false
    by (symmetry; apply Z.ltb_ge; lia).
  rewrite sep_if_0, length_app. cbn [List.length].
  f_equal. lia.
Qed.

(** One turn of the [for] loop when the chunk is full: it is emitted, and
    the next one starts with its last 200 characters. *)
Lemma merge_loop_full (d : string) (rest docs cur : list string) :
  Forall letter cur ->
  letter d ->
  List.length cur = 1000%nat ->
  merge_loop 1000 200 "" (d :: rest) docs cur (Z.of_nat (List.length cur))
  = merge_loop 1000 200 "" rest (docs ++ [join "" cur]) (skipn 800 cur ++ [d])
      (Z.of_nat (List.length (skipn 800 cur ++ [d]))).
Proof.
  intros Hcur Hd Hlen. cbn [merge_loop].
  change (len "") with 0%Z. rewrite !sep_if_0, (letter_len Hd).
  replace (1000 <? Z.of_nat (List.length cur) + 1 + 0)%Z with true
    by (symmetry; apply Z.ltb_lt; lia).
  assert (Hne : cur <> []) by (intros ->; discriminate Hlen).
  rewrite (letters_join_docs Hcur Hne), (drop_front_letters Hcur) by lia.
  destruct cur as [| p cur']; [now elim Hne |].
  rewrite Hlen. change (1000 - 200)%nat with 800%nat.
  cbv beta iota. rewrite sep_if_0, length_app, length_skipn, Hlen.
  reflexivity.
Qed.

Lemma merge_loop_end (docs cur : list string) (total : Z) :
  Forall letter cur ->
  cur <> [] ->
  merge_loop 1000 200 "" [] docs cur total = (docs ++ [join "" cur])%list.
Proof.
  intros Hcur Hne. cbn [merge_loop]. now rewrite (letters_join_docs Hcur Hne).
Qed.

(** *** Putting the chunks back together *)

Lemma reconstruct_snoc (l : list string) (x : string) :
  l <> [] -> reconstruct 200 (l ++ [x]) = reconstruct 200 l ++ str_drop 200 x.
Proof.
  destruct l as [| c cs]; [intros H; now elim H |]. intros _.
  cbn [app reconstruct]. rewrite map_app, app_comm_cons, join_empty_app.
  cbn [map]. now rewrite (join_empty_cons (str_drop 200 x) []), append_nil_r.
Qed.

(** A last chunk longer than the overlap can grow at its end. *)
Lemma reconstruct_grow (l : list string) (x y : string) :
  (l <> [] -> 200 <= String.length x)%nat ->
  reconstruct 200 (l ++ [x ++ y]) = reconstruct 200 (l ++ [x]) ++ y.
Proof.
  intros Hx. destruct l as [| c cs].
  - cbn. reflexivity.
  - assert (Hne : c :: cs <> []) by discriminate.
    rewrite !(reconstruct_snoc _ Hne), str_drop_append_le by auto.
    now rewrite append_assoc.
Qed.

(** The loop on the characters of [r], from a chunk in progress: the chunks
    put back together are what was read before, then [r]. *)
Lemma merge_chars_reconstruct (r : string) :
  forall docs cur : list string,
    Forall letter cur ->
    no_whitespace r = true ->
    (List.length cur <= 1000)%nat ->
    (docs <> [] -> 200 <= List.length cur)%nat ->
    cur <> [] \/ r <> "" ->
    reconstruct 200
      (merge_loop 1000 200 "" (chars r) docs cur (Z.of_nat (List.length cur)))
    = reconstruct 200 (docs ++ [join "" cur ++ r]).
Proof.
  induction r as [| c r IH]; intros docs cur Hcur Hr Hlen Hdocs Hne.
  - destruct Hne as [Hne | Hne]; [| now elim Hne].
    cbn [chars]. rewrite (merge_loop_end docs _ Hcur Hne). now rewrite append_nil_r.
  - cbn [chars]. apply andb_prop in Hr as [Hc Hr].
    assert (Hd : letter (String c "")) by (split; [reflexivity | cbn; now rewrite Hc]).
    assert (Hcur' : Forall letter (cur ++ [String c ""]))
      by (apply Forall_app; split; [assumption | now constructor]).
    destruct (Nat.eq_dec (List.length cur) 1000) as [Hfull | Hroom].
    + rewrite (merge_loop_full _ _ Hcur Hd Hfull).
      assert (Hkeep : Forall letter (skipn 800 cur ++ [String c ""])).
      { apply Forall_app. split; [| now constructor].
        rewrite <- (firstn_skipn 800 cur) in Hcur. now apply Forall_app in Hcur. }
      assert (Hkeep_len : List.length (skipn 800 cur) = 200%nat)
        by (rewrite length_skipn; lia).
      rewrite IH; try assumption.
      * rewrite join_empty_app, (join_empty_cons (String c "") []), append_nil_r.
        rewrite append_assoc.
        assert (Hne' : (docs ++ [join "" cur])%list <> []) by now destruct docs.
        rewrite (reconstruct_snoc _ Hne').
        assert (Hskip : Forall letter (skipn 800 cur)) by now apply Forall_app in Hkeep.
        pose proof (str_drop_append (join "" (skipn 800 cur)) (String c "" ++ r)) as Hdrop.
        rewrite (letters_join_length Hskip), Hkeep_len in Hdrop. rewrite Hdrop.
        symmetry. apply reconstruct_grow.
        intros _. rewrite (letters_join_length Hcur). lia.
      * rewrite length_app, Hkeep_len. cbn. lia.
      * intros _. rewrite length_app, Hkeep_len. cbn. lia.
      * left. now destruct (skipn 800 cur).
    + rewrite (@merge_loop_room _ (chars r) docs cur Hd) by lia.
      rewrite IH; try assumption.
      * rewrite join_empty_app, (join_empty_cons (String c "") []), append_nil_r.
        now rewrite append_assoc.
      * rewrite length_app. cbn. lia.
      * intros Hd'. specialize (Hdocs Hd'). rewrite length_app. lia.
      * left. now destruct cur.
Qed.

Lemma chunk_count_full (k : nat) :
  chunk_count (1000 + S k) = S (chunk_count (201 + k)).
Proof.
  unfold chunk_count.
  destruct (Nat.leb_spec (1000 + S k) 1000) as [H | _]; [lia |].
  destruct (Nat.leb_spec (201 + k) 1000) as [Hk | Hk].
  - replace (1000 + S k - 1000 + 799)%nat with (k + 1 * 800)%nat by lia.
    rewrite Nat.div_add by lia. rewrite (Nat.div_small k 800) by lia. reflexivity.
  - replace (1000 + S k - 1000 + 799)%nat with (201 + k - 1000 + 799 + 1 * 800)%nat by lia.
    rewrite Nat.div_add by lia. lia.
Qed.

Lemma merge_chars_count (r : string) :
  forall docs cur : list string,
    Forall letter cur ->
    no_whitespace r = true ->
    (List.length cur <= 1000)%nat ->
    cur <> [] \/ r <> "" ->
    List.length (merge_loop 1000 200 "" (chars r) docs cur (Z.of_nat (List.length cur)))
    = (List.length docs + chunk_count (List.length cur + String.length r))%nat.
Proof.
  induction r as [| c r IH]; intros docs cur Hcur Hr Hlen Hne.
  - destruct Hne as [Hne | Hne]; [| now elim Hne].
    cbn [chars]. rewrite (merge_loop_end docs _ Hcur Hne), length_app.
    unfold chunk_count. cbn [String.length List.length].
    destruct (Nat.leb_spec (List.length cur + 0) 1000); [reflexivity | lia].
  - cbn [chars String.length]. apply andb_prop in Hr as [Hc Hr].
    assert (Hd : letter (String c "")) by (split; [reflexivity | cbn; now rewrite Hc]).
    destruct (Nat.eq_dec (List.length cur) 1000) as [Hfull | Hroom].
    + rewrite (merge_loop_full _ _ Hcur Hd Hfull).
      assert (Hkeep : Forall letter (skipn 800 cur ++ [String c ""])).
      { apply Forall_app. split; [| now constructor].
        rewrite <- (firstn_skipn 800 cur) in Hcur. now apply Forall_app in Hcur. }
      assert (Hkeep_len : List.length (skipn 800 cur ++ [String c ""]) = 201%nat)
        by (rewrite length_app, length_skipn; cbn; lia).
      rewrite IH; try assumption.
      * rewrite Hkeep_len, Hfull, length_app, chunk_count_full. cbn [List.length]. lia.
      * lia.
      * left. now destruct (skipn 800 cur).
    + rewrite (@merge_loop_room _ (chars r) docs cur Hd) by lia.
      rewrite IH; try assumption.
      * rewrite length_app. cbn [List.length]. f_equal. f_equal. lia.
      * apply Forall_app; split; [assumption | now constructor].
      * rewrite length_app. cbn. lia.
      * left. now destruct cur.
Qed.

(** Pieces that are all short go to [_merge_splits] together. *)
Lemma split_loop_short (recur : string -> list string) (splits : list string) :
  Forall (fun p => (len p < 1000)%Z) splits ->
  forall final good : list string,
    split_loop 1000 200 recur splits final good
    = match (good ++ splits)%list with
      | [] => final
      | pieces => (final ++ _merge_splits 1000 200 pieces "")%list
      end.
Proof.
  induction 1 as [| p splits Hp _ IH]; intros final good; cbn [split_loop].
  - rewrite app_nil_r. now destruct good.
  - apply Z.ltb_lt in Hp. rewrite Hp, IH, <- app_assoc. reflexivity.
Qed.

(** A text without white space is cut between every two characters and the
    characters are merged by one loop. *)
Lemma split_text_letters (text : string) :
  no_whitespace text = true ->
  text <> "" ->
  split_text 1000 200 [nlnl; nl; " "; ""] text
  = merge_loop 1000 200 "" (chars text) [] [] 0.
Proof.
  intros Htext Hne. unfold split_text. cbn [last _split_text].
  change (nlnl =? "") with false. change (nl =? "") with false.
  change (" " =? "") with false. change ("" =? "") with true.
  change nlnl with (String (ascii_of_nat 10) nl).
  change nl with (String (ascii_of_nat 10) "").
  rewrite !contains_no_whitespace by (assumption || reflexivity).
  unfold split_with, _split_text_with_regex. rewrite chars_nonempty.
  rewrite split_loop_short.
  - cbn [app]. destruct text as [| c t]; [now elim Hne | reflexivity].
  - eapply Forall_impl; [| exact (chars_letters text Htext)].
    intros p Hp. rewrite (letter_len Hp). lia.
Qed.

(** For a text without white space: the windows overlap by 200 characters
    exactly, and there are as many as the length requires. *)
Lemma split_text_windows (text : string) :
  text <> "" ->
  no_whitespace text = true ->
  let chunks := split_text 1000 200 [nlnl; nl; " "; ""] text in
  reconstruct 200 chunks = text
  /\ List.length chunks = chunk_count (String.length text).
Proof.
  intros Hne Htext chunks. subst chunks.
  rewrite (split_text_letters Htext Hne).
  change 0%Z with (Z.of_nat (@List.length string [])).
  assert (Hstart : (@List.length string [] <= 1000)%nat) by (cbn; lia).
  split.
  - rewrite (@merge_chars_reconstruct text [] [] (Forall_nil _) Htext Hstart).
    + reflexivity.
    + intros H. now elim H.
    + now right.
  - rewrite (@merge_chars_count text [] [] (Forall_nil _) Htext Hstart).
    + reflexivity.
    + now right.
Qed.

(** The white space at the boundaries is lost for good: a text of one space
    gives no chunk, and [" a"] and ["a"] give the same chunks, so that
    nothing computed from the chunks gives back every text character for
    character. *)
Lemma split_text_strips_white_space :
  let split := split_text 1000 200 [nlnl; nl; " "; ""] in
  split " " = []
  /\ " " <> ""
  /\ split " a" = split "a"
  /\ ~ (exists rebuild : list string -> string,
          forall text, text <> "" -> rebuild (split text) = text).
Proof.
  cbv zeta. split; [reflexivity |]. split; [discriminate |]. split; [reflexivity |].
  intros [rebuild Hrebuild].
  pose proof (Hrebuild " a" ltac:(discriminate)) as H1.
  pose proof (Hrebuild "a" ltac:(discriminate)) as H2.
  change (split_text 1000 200 [nlnl; nl; " "; ""] " a") with ["a"] in H1.
  change (split_text 1000 200 [nlnl; nl; " "; ""] "a") with ["a"] in H2.
  rewrite H1 in H2. discriminate H2.
Qed.

(** *** White space and pieces *)

Lemma all_space_append (a b : string) :
  all_space (a ++ b) = all_space a && all_space b.
Proof.
  induction a as [| c a IH]; cbn; [reflexivity |]. now rewrite IH, andb_assoc.
Qed.

(** What [lstrip] and [rstrip] remove is white space. *)
Lemma lstrip_split (s : string) :
  exists l, all_space l = true /\ s = l ++ lstrip s.
Proof.
  induction s as [| c s (l & Hl & Hs)]; [now exists "" |].
  cbn [lstrip]. destruct (isspace c) eqn:Hc; [| now exists ""].
  exists (String c l). cbn. rewrite Hc, Hl. split; [reflexivity |]. now rewrite <- Hs.
Qed.

Lemma rstrip_split (s : string) :
  exists r, all_space r = true /\ s = rstrip s ++ r.
Proof.
  induction s as [| c s (r & Hr & Hs)]; [now exists "" |].
  cbn [rstrip]. destruct (rstrip s) as [| c' s'] eqn:Hstrip.
  - cbn in Hs. subst s. destruct (isspace c) eqn:Hc.
    + exists (String c r). cbn. rewrite Hc, Hr. now split.
    + exists r. now split.
  - exists r. split; [assumption |]. cbn in Hs |- *. now f_equal.
Qed.

Lemma lstrip_append (a b : string) :
  lstrip (a ++ b) = match lstrip a with "" => lstrip b | a' => a' ++ b end.
Proof.
  induction a as [| c a IH]; cbn; [reflexivity |].
  destruct (isspace c); [exact IH | reflexivity].
Qed.

Lemma rstrip_append (a b : string) :
  rstrip (a ++ b) = match rstrip b with "" => rstrip a | b' => a ++ b' end.
Proof.
  induction a as [| c a IH]; cbn.
  - now destruct (rstrip b).
  - rewrite IH. destruct (rstrip b) as [| c' b']; [reflexivity |].
    now destruct a.
Qed.

Lemma join_snoc (l : list string) (d : string) : join "" (l ++ [d]) = join "" l ++ d.
Proof.
  now rewrite join_empty_app, (join_empty_cons d []), append_nil_r.
Qed.

(** The pieces of a text, joined, are the text. *)
Lemma chars_join (text : string) : join "" (chars text) = text.
Proof.
  induction text as [| c text IH]; [reflexivity |].
  cbn [chars]. now rewrite join_empty_cons, IH.
Qed.

Lemma split_keep_join (sep : string) (text : string) :
  forall (skip : nat) (piece : string),
    join "" (split_keep sep skip piece text) = piece ++ text.
Proof.
  induction text as [| c text IH]; intros skip piece; cbn [split_keep].
  - cbn. now rewrite append_nil_r.
  - destruct skip as [| k].
    + destruct (prefix sep (String c text)).
      * rewrite join_empty_cons, IH. reflexivity.
      * rewrite IH, append_assoc. reflexivity.
    + rewrite IH, append_assoc. reflexivity.
Qed.

Lemma filter_nonempty_join (pieces : list string) :
  join "" (filter nonempty pieces) = join "" pieces.
Proof.
  induction pieces as [| p pieces IH]; [reflexivity |].
  cbn [filter]. rewrite (join_empty_cons p pieces).
  destruct p as [| c p]; cbn [nonempty String.eqb negb]; [exact IH |].
  now rewrite join_empty_cons, IH.
Qed.

Lemma split_text_with_regex_join (text separator : string) :
  join "" (_split_text_with_regex text separator) = text.
Proof.
  unfold _split_text_with_regex. rewrite filter_nonempty_join.
  destruct separator; [apply chars_join | apply (split_keep_join _ text 0 "")].
Qed.

(** The [while] loop keeps [total] in step with the pieces that stay, so
    that with no piece left [total] is 0 and the loop has stopped. *)
Lemma drop_front_weight (chunk_size chunk_overlap separator_len _len : Z)
      (current_doc : list string) :
  let out :=
    drop_front chunk_size chunk_overlap separator_len _len current_doc
      (weight separator_len current_doc) in
  snd out = weight separator_len (fst out).
Proof.
  induction current_doc as [| d0 rest IH]; cbn [drop_front weight]; [reflexivity |].
  destruct (_ || _)%bool; [| reflexivity].
  replace (len d0 + sep_if match rest with [] => false | _ :: _ => true end separator_len
           + weight separator_len rest
           - (len d0 + sep_if match rest with [] => false | _ :: _ => true end separator_len))%Z
    with (weight separator_len rest) by lia.
  exact IH.
Qed.

(** *** Any text: the chunks along it *)

Lemma lstrip_length (s : string) : (String.length (lstrip s) <= String.length s)%nat.
Proof.
  destruct (lstrip_split s) as (l & _ & Hs). rewrite Hs at 2. rewrite length_append. lia.
Qed.

Lemma rstrip_length (s : string) : (String.length (rstrip s) <= String.length s)%nat.
Proof.
  destruct (rstrip_split s) as (r & _ & Hs). rewrite Hs at 2. rewrite length_append. lia.
Qed.

(** What [strip] leaves of [a ++ b], seen from the seam. *)
Lemma strip_parts (a b : string) :
  exists overlap tail l r front back,
    strip (a ++ b) = overlap ++ tail
    /\ b = l ++ tail ++ r
    /\ a ++ l = front ++ overlap ++ back
    /\ all_space l = true /\ all_space r = true /\ all_space back = true
    /\ (tail = "" \/ back = "")
    /\ (String.length overlap <= String.length a)%nat.
Proof.
  unfold strip. rewrite lstrip_append.
  destruct (lstrip a) as [| c a'] eqn:Ha.
  - destruct (lstrip_split b) as (l & Hl & Hlb).
    destruct (rstrip_split (lstrip b)) as (r & Hr & Hb).
    exists "", (rstrip (lstrip b)), l, r, (a ++ l), "".
    repeat split; try assumption; try reflexivity.
    + now rewrite <- Hb.
    + now rewrite append_nil_r.
    + now right.
    + cbn. lia.
  - destruct (lstrip_split a) as (wl & Hwl & Hla). rewrite Ha in Hla.
    rewrite rstrip_append.
    destruct (rstrip_split b) as (r & Hr & Hb).
    destruct (rstrip b) as [| c' b'] eqn:Hstrip.
    + destruct (rstrip_split (String c a')) as (wr & Hwr & Hra).
      exists (rstrip (String c a')), "", "", b, wl, wr.
      repeat split; try assumption; try reflexivity.
      * now rewrite append_nil_r.
      * rewrite append_nil_r, <- Hra. exact Hla.
      * cbn in Hb. now rewrite Hb.
      * now left.
      * pose proof (rstrip_length (String c a')) as H1.
        pose proof (lstrip_length a) as H2. rewrite Ha in H2. lia.
    + exists (String c a'), (String c' b'), "", r, wl, "".
      repeat split; try assumption; try reflexivity.
      * now rewrite !append_nil_r.
      * now right.
      * pose proof (lstrip_length a) as H2. now rewrite Ha in H2.
Qed.

Lemma placed_gap (m : nat) (gap before text : string) (chunks : list string) :
  all_space gap = true ->
  placed m (before ++ gap) chunks text ->
  placed m before chunks (gap ++ text).
Proof.
  intros Hgap H. remember (before ++ gap) as before' eqn:Hb.
  destruct H as [before' text Htext
                | before' overlap tail gap' after front back rest Hlen Hgap' Hback Hor Hseam Hrest].
  - apply placed_nil. now rewrite all_space_append, Hgap, Htext.
  - subst before'. rewrite <- append_assoc.
    apply placed_cons with (front := front) (back := back); try assumption.
    + now rewrite all_space_append, Hgap, Hgap'.
    + now rewrite <- append_assoc.
    + now rewrite <- !append_assoc in *.
Qed.

Lemma placed_app (m : nat) (chunks1 chunks2 : list string) (text2 : string) :
  forall before text1,
    placed m before chunks1 text1 ->
    placed m (before ++ text1) chunks2 text2 ->
    placed m before (chunks1 ++ chunks2) (text1 ++ text2).
Proof.
  intros before text1 H1. revert text2.
  induction H1 as [before text Htext
                  | before overlap tail gap after front back rest
                      Hlen Hgap Hback Hor Hseam Hrest IH];
    intros text2 H2; cbn [app].
  - now apply placed_gap.
  - rewrite !append_assoc.
    apply placed_cons with (front := front) (back := back); try assumption.
    apply IH. now rewrite !append_assoc.
Qed.

Lemma placed_one (m : nat) (before s : string) : placed m before [s] s.
Proof.
  pose proof (@placed_cons m before "" s "" "" before "" [] (Nat.le_0_l m)
                eq_refl eq_refl (or_intror eq_refl)) as H.
  cbn [append] in H. rewrite !append_nil_r in H.
  apply H; [reflexivity | now apply placed_nil].
Qed.

(** Every chunk placed along a text occurs in it. *)
Lemma placed_occurs (m : nat) (before text : string) (chunks : list string) :
  placed m before chunks text -> Forall (occurs_in (before ++ text)) chunks.
Proof.
  induction 1 as [before text Htext
                 | before overlap tail gap after front back rest
                     Hlen Hgap Hback Hor Hseam Hrest IH];
    constructor.
  - destruct Hor as [-> | ->].
    + exists front, (back ++ after). cbn [append].
      rewrite append_nil_r, <- !append_assoc, Hseam. now rewrite !append_assoc.
    + exists front, after. rewrite append_nil_r in Hseam.
      rewrite <- !append_assoc, Hseam. now rewrite !append_assoc.
  - now rewrite !append_assoc in IH.
Qed.

Lemma sep_if_zero (b : bool) : sep_if b (len "") = 0.
Proof. now destruct b. Qed.

Lemma weight_join (pieces : list string) : weight (len "") pieces = len (join "" pieces).
Proof.
  induction pieces as [| p rest IH]; [reflexivity |].
  cbn [weight]. rewrite sep_if_zero, IH, join_empty_cons.
  unfold len. rewrite length_append. lia.
Qed.

(** The [while] loop drops pieces from the front, and what it keeps fits
    the overlap. *)
Lemma drop_front_suffix (chunk_size chunk_overlap separator_len _len : Z)
      (current_doc : list string) :
  forall total,
    exists dropped,
      current_doc
      = (dropped
           ++ fst (drop_front chunk_size chunk_overlap separator_len _len current_doc total))%list.
Proof.
  induction current_doc as [| d0 rest IH]; intros total; cbn [drop_front].
  - now exists [].
  - destruct (_ || _)%bool.
    + destruct (IH (total - (len d0
                             + sep_if match rest with [] => false | _ :: _ => true end
                                 separator_len))%Z) as (dropped & Hrest).
      exists (d0 :: dropped). cbn [app]. now rewrite <- Hrest.
    + now exists [].
Qed.

Lemma drop_front_fits (chunk_size chunk_overlap separator_len _len : Z)
      (current_doc : list string) :
  0 <= chunk_overlap ->
  weight separator_len
    (fst (drop_front chunk_size chunk_overlap separator_len _len current_doc
            (weight separator_len current_doc)))
  <= chunk_overlap.
Proof.
  intros Hoverlap.
  induction current_doc as [| d0 rest IH]; cbn [drop_front weight fst]; [assumption |].
  destruct (chunk_overlap <? _)%Z eqn:Hover; cbn [orb].
  - replace (len d0 + sep_if match rest with [] => false | _ :: _ => true end separator_len
             + weight separator_len rest
             - (len d0 + sep_if match rest with [] => false | _ :: _ => true end separator_len))%Z
      with (weight separator_len rest) by lia.
    exact IH.
  - destruct (_ && _)%bool.
    + replace (len d0 + sep_if match rest with [] => false | _ :: _ => true end separator_len
               + weight separator_len rest
               - (len d0 + sep_if match rest with [] => false | _ :: _ => true end separator_len))%Z
        with (weight separator_len rest) by lia.
      exact IH.
    + cbn [fst weight]. apply Z.ltb_ge in Hover. exact Hover.
Qed.

(** What [_join_docs] emits for the pieces [kept ++ fresh], the kept ones
    being the end of what was read, is placed along the fresh ones. *)
Lemma placed_join_docs (m : nat) (read : string) (kept fresh : list string) :
  (exists front, read = front ++ join "" kept) ->
  (String.length (join "" kept) <= m)%nat ->
  placed m read
    (match _join_docs (kept ++ fresh) "" with Some doc => [doc] | None => [] end)
    (join "" fresh).
Proof.
  intros (front0 & Hread) Hkept.
  unfold _join_docs. rewrite join_empty_app.
  destruct (strip_parts (join "" kept) (join "" fresh))
    as (overlap & tail & l & r & front & back
        & Hstrip & Hfresh & Hseam & Hl & Hr & Hback & Hor & Hlen).
  rewrite Hstrip, Hfresh.
  assert (Hplaced : placed m read [overlap ++ tail] (l ++ tail ++ r)).
  { apply placed_cons with (front := front0 ++ front) (back := back);
      try assumption; [lia | | now apply placed_nil].
    now rewrite Hread, !append_assoc, Hseam. }
  destruct (overlap ++ tail) as [| c s] eqn:Hchunk; [| exact Hplaced].
  apply placed_nil.
  destruct overlap; [| discriminate Hchunk]. cbn in Hchunk. subst tail.
  now rewrite !all_space_append, Hl, Hr.
Qed.

Lemma weight_snoc (pieces : list string) (d : string) :
  weight (len "") (pieces ++ [d]) = weight (len "") pieces + len d.
Proof.
  rewrite !weight_join, join_snoc. unfold len. rewrite length_append. lia.
Qed.

(** The loop of [_merge_splits]: the chunks emitted are placed along what
    was read; the pieces kept from the last chunk are the end of what was
    read and fit the overlap. *)
Lemma merge_loop_placed (chunk_size : Z) (m : nat) (before : string) (splits : list string) :
  forall (docs kept fresh : list string) (read : string),
    (exists front, before ++ read = front ++ join "" kept) ->
    (String.length (join "" kept) <= m)%nat ->
    placed m before docs read ->
    placed m before
      (merge_loop chunk_size (Z.of_nat m) "" splits docs (kept ++ fresh)
         (weight (len "") (kept ++ fresh)))
      (read ++ join "" fresh ++ join "" splits).
Proof.
  induction splits as [| d rest IH]; intros docs kept fresh read Hkept Hfits Hread.
  - cbn [merge_loop join]. rewrite append_nil_r.
    replace (match _join_docs (kept ++ fresh) "" with
             | Some doc => (docs ++ [doc])%list
             | None => docs
             end)
      with (docs ++ match _join_docs (kept ++ fresh) "" with
                    | Some doc => [doc]
                    | None => []
                    end)%list
      by (destruct (_join_docs (kept ++ fresh) ""); [reflexivity | apply app_nil_r]).
    apply placed_app; [assumption |]. now apply placed_join_docs.
  - assert (Hstay :
             placed m before
               (merge_loop chunk_size (Z.of_nat m) "" rest docs ((kept ++ fresh) ++ [d])
                  (weight (len "") (kept ++ fresh) + len d
                   + sep_if match (kept ++ fresh)%list with [] => false | _ :: _ => true end
                       (len "")))
               (read ++ join "" fresh ++ join "" (d :: rest))).
    { rewrite sep_if_zero, Z.add_0_r, <- weight_snoc, <- app_assoc.
      replace (join "" fresh ++ join "" (d :: rest))
        with (join "" (fresh ++ [d]) ++ join "" rest)
        by (now rewrite join_snoc, join_empty_cons, append_assoc).
      now apply IH. }
    cbn [merge_loop].
    destruct (chunk_size <? _)%Z; [| exact Hstay].
    destruct (kept ++ fresh)%list as [| p cur'] eqn:Hcur; [exact Hstay |].
    rewrite <- Hcur in *. clear Hstay.
    pose proof (drop_front_weight chunk_size (Z.of_nat m) (len "") (len d) (kept ++ fresh))
      as Hweight.
    pose proof (@drop_front_fits chunk_size (Z.of_nat m) (len "") (len d) (kept ++ fresh)
                  (Zle_0_nat m)) as Hsmall.
    destruct (drop_front_suffix chunk_size (Z.of_nat m) (len "") (len d) (kept ++ fresh)
                (weight (len "") (kept ++ fresh))) as (dropped & Hdropped).
    cbv zeta in Hweight.
    destruct (drop_front chunk_size (Z.of_nat m) (len "") (len d) (kept ++ fresh)
                (weight (len "") (kept ++ fresh))) as [kept' total'].
    cbn [fst snd] in *. subst total'.
    replace (match _join_docs (kept ++ fresh) "" with
             | Some doc => (docs ++ [doc])%list
             | None => docs
             end)
      with (docs ++ match _join_docs (kept ++ fresh) "" with
                    | Some doc => [doc]
                    | None => []
                    end)%list
      by (destruct (_join_docs (kept ++ fresh) ""); [reflexivity | apply app_nil_r]).
    rewrite sep_if_zero, Z.add_0_r, <- weight_snoc.
    replace (read ++ join "" fresh ++ join "" (d :: rest))
      with ((read ++ join "" fresh) ++ join "" [d] ++ join "" rest)
      by (change (join "" [d]) with d;
          now rewrite (join_empty_cons d rest), append_assoc).
    apply IH.
    + destruct Hkept as (front & Hfront).
      exists (front ++ join "" dropped).
      rewrite <- append_assoc, Hfront, !append_assoc, <- !join_empty_app.
      now rewrite <- Hdropped.
    + rewrite weight_join in Hsmall. unfold len in Hsmall. lia.
    + apply placed_app; [assumption |]. now apply placed_join_docs.
Qed.
Lemma merge_splits_placed (chunk_size : Z) (m : nat) (before : string) (splits : list string) :
  placed m before (_merge_splits chunk_size (Z.of_nat m) splits "") (join "" splits).
Proof.
  unfold _merge_splits.
  apply (@merge_loop_placed chunk_size m before splits [] [] [] "").
  - exists before. reflexivity.
  - cbn. lia.
  - now apply placed_nil.
Qed.

(** The [for] loop of [_split_text]: the short pieces wait in
    [_good_splits], the long ones are split again. *)
Lemma split_loop_placed (chunk_size : Z) (m : nat) (recur : string -> list string)
      (splits : list string) :
  (forall before s, placed m before (recur s) s) ->
  forall (before : string) (final good : list string) (read : string),
    placed m before final read ->
    placed m before
      (split_loop chunk_size (Z.of_nat m) recur splits final good)
      (read ++ join "" good ++ join "" splits).
Proof.
  intros Hrecur before.
  assert (Hflush :
           forall (final good : list string) (read : string),
             placed m before final read ->
             placed m before
               (match good with
                | [] => final
                | _ => (final ++ _merge_splits chunk_size (Z.of_nat m) good "")%list
                end)
               (read ++ join "" good)).
  { intros final good read Hread. destruct good as [| g good].
    - cbn. now rewrite append_nil_r.
    - apply placed_app; [assumption | apply merge_splits_placed]. }
  induction splits as [| s rest IH]; intros final good read Hread; cbn [split_loop].
  - cbn [join]. rewrite append_nil_r. now apply Hflush.
  - destruct (len s <? chunk_size)%Z.
    + replace (read ++ join "" good ++ join "" (s :: rest))
        with (read ++ join "" (good ++ [s]) ++ join "" rest)
        by (now rewrite join_snoc, (join_empty_cons s rest), append_assoc).
      now apply IH.
    + replace (read ++ join "" good ++ join "" (s :: rest))
        with (((read ++ join "" good) ++ s) ++ join "" [] ++ join "" rest)
        by (now rewrite (join_empty_cons s rest), !append_assoc).
      apply IH. apply placed_app; [now apply Hflush | apply Hrecur].
Qed.

Lemma split_with_placed (chunk_size : Z) (m : nat) (recur : string -> list string)
      (separator : string) :
  (forall before s, placed m before (recur s) s) ->
  forall before text,
    placed m before (split_with chunk_size (Z.of_nat m) recur separator text) text.
Proof.
  intros Hrecur before text. unfold split_with.
  pose proof (@split_loop_placed chunk_size m recur
                (_split_text_with_regex text separator) Hrecur before [] [] ""
                (placed_nil m before "" eq_refl)) as H.
  cbn [join append] in H. now rewrite split_text_with_regex_join in H.
Qed.

(** Every chunk list the splitter returns is placed along its text,
    whatever the sizes and the separators. *)
Lemma split_text_placed (chunk_size : Z) (m : nat) (fallback : string)
      (separators : list string) :
  forall before text,
    placed m before (_split_text chunk_size (Z.of_nat m) fallback separators text) text.
Proof.
  induction separators as [| sep rest IH]; intros before text; cbn [_split_text].
  - apply split_with_placed. intros. apply placed_one.
  - destruct (sep =? ""); [apply split_with_placed; intros; apply placed_one |].
    destruct (contains sep text); [| apply IH].
    apply split_with_placed. destruct rest; [intros; apply placed_one | apply IH].
Qed.

(** *** Chunks are stripped *)

Lemma rstrip_rstrip (s : string) : rstrip (rstrip s) = rstrip s.
Proof.
  induction s as [| c s IH]; [reflexivity |].
  cbn [rstrip]. destruct (rstrip s) as [| c' s'] eqn:Hs.
  - destruct (isspace c) eqn:Hc; [reflexivity |]. cbn. now rewrite Hc.
  - cbn [rstrip] in IH |- *. now rewrite IH.
Qed.

Lemma lstrip_rstrip_lstrip (s : string) : lstrip (rstrip (lstrip s)) = rstrip (lstrip s).
Proof.
  induction s as [| c s IH]; [reflexivity |].
  cbn [lstrip]. destruct (isspace c) eqn:Hc; [exact IH |].
  cbn [rstrip]. destruct (rstrip s); rewrite ?Hc; cbn [lstrip]; now rewrite Hc.
Qed.

Lemma strip_strip (s : string) : strip (strip s) = strip s.
Proof.
  unfold strip. now rewrite lstrip_rstrip_lstrip, rstrip_rstrip.
Qed.

Lemma join_docs_stripped (docs : list string) (separator doc : string) :
  _join_docs docs separator = Some doc -> stripped doc.
Proof.
  unfold _join_docs. pose proof (strip_strip (join separator docs)) as Hs.
  destruct (strip (join separator docs)) as [| c s]; [discriminate |].
  intros [= <-]. split; [discriminate | exact Hs].
Qed.

Lemma emit_stripped (docs cur : list string) (separator : string) :
  Forall stripped docs ->
  Forall stripped
    (match _join_docs cur separator with
     | Some doc => (docs ++ [doc])%list
     | None => docs
     end).
Proof.
  intros Hdocs. destruct (_join_docs cur separator) as [doc |] eqn:Hdoc; [| assumption].
  apply Forall_app. split; [assumption |].
  constructor; [now apply (join_docs_stripped cur separator) | constructor].
Qed.

Lemma merge_loop_stripped (chunk_size chunk_overlap : Z) (separator : string)
      (splits : list string) :
  forall (docs cur : list string) (total : Z),
    Forall stripped docs ->
    Forall stripped (merge_loop chunk_size chunk_overlap separator splits docs cur total).
Proof.
  induction splits as [| d rest IH]; intros docs cur total Hdocs; cbn [merge_loop].
  - now apply emit_stripped.
  - destruct (chunk_size <? _)%Z; [| now apply IH].
    destruct cur as [| p cur']; [now apply IH |].
    destruct (drop_front _ _ _ _ _ _) as [kept total'].
    apply IH. now apply emit_stripped.
Qed.

(** The [for] loop of [_split_text] when every piece that is too long is
    split again into stripped chunks. *)
Lemma split_loop_stripped (chunk_size chunk_overlap : Z) (recur : string -> list string)
      (splits : list string) :
  (forall s, In s splits -> (len s <? chunk_size)%Z = false -> Forall stripped (recur s)) ->
  forall final good : list string,
    Forall stripped final ->
    Forall stripped (split_loop chunk_size chunk_overlap recur splits final good).
Proof.
  assert (Hflush :
           forall final good : list string,
             Forall stripped final ->
             Forall stripped
               (match good with
                | [] => final
                | _ => (final ++ _merge_splits chunk_size chunk_overlap good "")%list
                end)).
  { intros final good Hfinal. destruct good as [| g good]; [assumption |].
    apply Forall_app. split; [assumption |].
    apply merge_loop_stripped. constructor. }
  induction splits as [| s rest IH]; intros Hrecur final good Hfinal; cbn [split_loop].
  - now apply Hflush.
  - destruct (len s <? chunk_size)%Z eqn:Hs.
    + apply IH; [| assumption]. intros s' Hin. apply Hrecur. now right.
    + apply IH; [intros s' Hin; apply Hrecur; now right |].
      apply Forall_app. split; [now apply Hflush |].
      apply Hrecur; [now left | assumption].
Qed.

Lemma chars_one (text s : string) : In s (chars text) -> len s = 1.
Proof.
  induction text as [| c text IH]; cbn [chars In]; [intros [] |].
  intros [<- | Hin]; [reflexivity | now apply IH].
Qed.

(** With the empty separator last and chunks of more than one character,
    no piece is ever emitted as it is: every chunk went through
    [_join_docs]. *)
Lemma split_text_stripped (chunk_size chunk_overlap : Z) (fallback : string)
      (separators : list string) :
  1 < chunk_size ->
  last separators "x" = "" ->
  forall text,
    Forall stripped (_split_text chunk_size chunk_overlap fallback separators text).
Proof.
  intros Hsize.
  assert (Hchars :
           forall text,
             Forall stripped (split_with chunk_size chunk_overlap (fun s => [s]) "" text)).
  { intros text. unfold split_with. apply split_loop_stripped; [| constructor].
    intros s Hin Hlong. unfold _split_text_with_regex in Hin.
    apply filter_In in Hin. destruct Hin as [Hin _].
    apply chars_one in Hin. apply Z.ltb_ge in Hlong. lia. }
  induction separators as [| sep rest IH]; intros Hlast text; [discriminate Hlast |].
  cbn [_split_text].
  destruct (sep =? "") eqn:Hsep; [apply Hchars |].
  assert (Hrest : rest <> []).
  { intros ->. cbn in Hlast. subst sep. discriminate Hsep. }
  assert (Hlast' : last rest "x" = "").
  { destruct rest as [| sep' rest']; [now elim Hrest | exact Hlast]. }
  destruct (contains sep text); [| now apply IH].
  unfold split_with. apply split_loop_stripped; [| constructor].
  intros s _ _. destruct rest as [| sep' rest']; [now elim Hrest |]. now apply IH.
Qed.

(** C5. The chunks of a non-empty text (chunk size 1000, overlap 200,
    separators blank line, line feed, space, nothing) are a function of the
    text, and so is their number.  Put back together in order, each chunk
    without its overlapping prefix, they spell the text: every chunk is a
    piece of the text, not empty and without white space at its ends; the
    prefix removed from it, of at most 200 characters, is the text that
    comes just before what the chunk adds; and what the chunks add, in
    order, is the text but for white space before, between and after them,
    which is what the boundaries chosen by the splitter cost.  For a text
    without white space nothing is lost: the overlap is 200 characters
    exactly, the chunks put back together are the text, and a text of [n]
    characters gives one chunk when [n] is at most 1000 and one more for
    every 800 characters, or part of them, beyond. *)
Theorem split_text_reproduces_text (text : string) :
  text <> "" ->
  let split := split_text 1000 200 [nlnl; nl; " "; ""] in
  (forall other, other = text -> List.length (split other) = List.length (split text))
  /\ placed 200 "" (split text) text
  /\ Forall (fun chunk => stripped chunk /\ occurs_in text chunk) (split text)
  /\ (no_whitespace text = true ->
      reconstruct 200 (split text) = text
      /\ List.length (split text) = chunk_count (String.length text)).
Proof.
  intros Hne split. split; [now intros other -> |].
  pose proof (split_text_placed 1000 200 "" [nlnl; nl; " "; ""] "" text) as Hplaced.
  split; [exact Hplaced |]. split.
  - apply Forall_forall. intros chunk Hin. split.
    + pose proof (@split_text_stripped 1000 200 "" [nlnl; nl; " "; ""] eq_refl eq_refl text)
        as Hstripped.
      rewrite Forall_forall in Hstripped. now apply Hstripped.
    + pose proof (placed_occurs Hplaced) as Hoccurs.
      rewrite Forall_forall in Hoccurs. now apply Hoccurs.
  - intros Htext. exact (split_text_windows Hne Htext).
Qed.

Lemma split_text_reproduces_text_witness :
  let split := split_text 1000 200 [nlnl; nl; " "; ""] in
  (str_mul "A" 1500 <> ""
   /\ no_whitespace (str_mul "A" 1500) = true
   /\ reconstruct 200 (split (str_mul "A" 1500)) = str_mul "A" 1500
   /\ List.length (split (str_mul "A" 1500)) = 2%nat)
  /\ (" two  words " <> ""
      /\ split " two  words " = ["two  words"]
      /\ placed 200 "" (split " two  words ") " two  words "
      /\ Forall (fun chunk => stripped chunk /\ occurs_in " two  words " chunk)
           (split " two  words ")).
Proof.
  split.
  - assert (Hne : str_mul "A" 1500 <> "") by discriminate.
    assert (Htext : no_whitespace (str_mul "A" 1500) = true) by (vm_compute; reflexivity).
    destruct (split_text_reproduces_text Hne) as (_ & _ & _ & Hwindows).
    destruct (Hwindows Htext) as [Hrec Hcount].
    split; [exact Hne |]. split; [exact Htext |]. split; [exact Hrec |].
    rewrite Hcount. vm_compute. reflexivity.
  - assert (Hne : " two  words " <> "") by discriminate.
    destruct (split_text_reproduces_text Hne) as (_ & Hplaced & Hchunks & _).
    split; [exact Hne |]. split; [reflexivity |]. split; [exact Hplaced | exact Hchunks].
Defined.

End SplitterFacts.

(** ** More properties of the handlers *)

Section Runs.

Variable float_repr : float -> string.
Variable str_other : json -> string.
Variable split_text : Z -> Z -> list string -> string -> list string.
Variable W : Type.
Variable service : forall A : Type, call A -> W -> result A * W.
Variable traceback_here : W -> traceback.

Abbreviation run_ingest := (process_document float_repr split_text service traceback_here).
Abbreviation run_answer := (get_answer float_repr str_other service traceback_here).
Abbreviation ingest_body :=
  (process_document_body float_repr split_text service traceback_here).
Abbreviation answer_body := (get_answer_body float_repr str_other service traceback_here).

(** The run of a body to its leaves, as before. *)
Ltac leaf_step :=
  first
    [ apply spec_ret
    | apply spec_eval
    | apply spec_raise; intros ?
    | apply spec_logging_info
    | apply spec_ext; intros [? | ?]
    | apply spec_bind ];
  cbv beta iota.

Ltac leaves :=
  repeat
    (first
       [ leaf_step
       | progress unfold initialize_embeddings, get_pinecone_client, py_get
       | match goal with
         | |- spec (match ?x with _ => _ end) _ => destruct x eqn:?
         | |- spec (if ?b then _ else _) _ => destruct b eqn:?
         | |- match ?x with _ => _ end => destruct x eqn:?
         end ]).

(** What a leaf shows of its events. *)
Ltac observe_once :=
  rewrite ?flat_map_app, ?filter_app;
  cbn [app flat_map filter List.length hd_error fst snd
         is_call is_chat_completion upserted retrieved clock_read
         is_error_log info_log is_clock writes_index asks created listed
         reads_dimension dimension_read upsert_done searched chat_request chat_reply
         env_read embedding_keys pinecone_keys chat_keys failed returned
         opened text_keys
         status_code mimetype body func_HttpResponse].

Ltac observe := repeat (progress observe_once).

(** *** The answers of [get_answer] *)

Lemma answer_body_shape (req : HttpRequest) :
  spec (answer_body req)
    (fun r evs =>
       filter is_error_log evs = []
       /\ match r with
          | Ok resp =>
              mimetype resp = "application/json"
              /\ (status_code resp = 200
                  \/ status_code resp = 400 /\ filter is_call evs = [])
          | Raise _ => True
          end).
Proof.
  unfold get_answer_body.
  leaves.
  all: observe; auto.
Qed.

(** X1. Every answer of [get_answer] is typed JSON and has status 200, 400 or
    500; a 400 is given before any call to the outside. *)
Theorem get_answer_status_and_type (req : HttpRequest) (w : W) :
  let out := run_answer req (start w) in
  mimetype (fst out) = "application/json"
  /\ (status_code (fst out) = 200 \/ status_code (fst out) = 400
      \/ status_code (fst out) = 500)
  /\ (status_code (fst out) = 400 -> calls (snd out) = []).
Proof.
  intros out. subst out.
  destruct (get_answer_outcome w (answer_body_shape req))
    as (evs & [(r & (_ & Hmime & Hstatus) & Hfst & Htr) | (e & _ & Hfst & Htr)]);
    rewrite Hfst; unfold calls; rewrite Htr.
  - split; [assumption |]. split; [tauto |].
    intros H400. destruct Hstatus as [H200 | [_ Hcalls]]; [congruence |].
    cbn [filter is_call]. exact Hcalls.
  - split; [reflexivity |]. split; [cbn; tauto |]. cbn. discriminate.
Qed.

(** X2. [get_answer] answers 500 exactly when an error was logged: the error
    line is then the last line of the run and the only one, and the body is
    the message it carries; a run that answers 200 or 400 logs no error. *)
Theorem get_answer_failure_logged (req : HttpRequest) (w : W) :
  let out := run_answer req (start w) in
  (status_code (fst out) = 500 ->
   exists msg,
     filter is_error_log (trace (snd out)) = [LogError ("Error generating answer: " ++ msg)]
     /\ last (trace (snd out)) (LogInfo "") = LogError ("Error generating answer: " ++ msg)
     /\ body (fst out) = json_dumps float_repr (JObject [("error", JString msg)]))
  /\ (status_code (fst out) <> 500 -> filter is_error_log (trace (snd out)) = []).
Proof.
  intros out. subst out.
  destruct (get_answer_outcome w (answer_body_shape req))
    as (evs & [(r & (Hlog & _ & Hstatus) & Hfst & Htr) | (e & (Hlog & _) & Hfst & Htr)]);
    rewrite Hfst, Htr.
  - split.
    + intros H500. destruct Hstatus as [H200 | [H400 _]]; congruence.
    + intros _. cbn [filter is_error_log]. exact Hlog.
  - split.
    + intros _. exists (exn_str e). split; [| split; [| reflexivity]].
      * cbn [filter is_error_log]. rewrite filter_app, Hlog. reflexivity.
      * rewrite app_comm_cons. apply last_last.
    + intros Hnot. now elim Hnot.
Qed.

(** *** The answers of [process_document] *)

Lemma clock_only_flat_map {B : Type} (f : event -> list B) (evs : list event) :
  (forall r, f (Called datetime_now_str r) = []) ->
  forallb is_clock evs = true ->
  flat_map f evs = [].
Proof.
  intros Hf. induction evs as [| e evs IH]; [reflexivity |].
  cbn [forallb flat_map]. intros [He Hevs]%andb_prop.
  rewrite (IH Hevs), app_nil_r.
  destruct e as [msg | msg | A c r]; try discriminate He.
  destruct c; try discriminate He. apply Hf.
Qed.

Lemma clock_only_filter (p : event -> bool) (evs : list event) :
  (forall r, p (Called datetime_now_str r) = false) ->
  forallb is_clock evs = true ->
  filter p evs = [].
Proof.
  intros Hp. induction evs as [| e evs IH]; [reflexivity |].
  cbn [forallb filter]. intros [He Hevs]%andb_prop.
  rewrite (IH Hevs).
  destruct e as [msg | msg | A c r]; try discriminate He.
  destruct c; try discriminate He. now rewrite Hp.
Qed.

(** The comprehension that builds the documents reads the clock and does
    nothing else. *)
Lemma make_docs_clock (indexed : list (Z * string)) :
  spec (make_docs service indexed) (fun _ evs => forallb is_clock evs = true).
Proof.
  induction indexed as [| [i t] rest IH]; cbn [make_docs].
  - now apply spec_ret.
  - apply spec_bind, spec_ext. intros [now | e]; [| reflexivity].
    apply spec_bind. eapply spec_weaken; [exact IH |].
    intros [docs | e] evs Hevs; [| exact Hevs].
    apply spec_ret. cbn [app forallb is_clock]. now rewrite app_nil_r.
Qed.

(** The events of the comprehension vanish from what is observed. *)
Ltac clock_out H :=
  repeat
    match goal with
    | |- context [flat_map ?f ?evs] =>
        rewrite (@clock_only_flat_map _ f evs (fun _ => eq_refl) H)
    | |- context [filter ?p ?evs] =>
        rewrite (@clock_only_filter p evs (fun _ => eq_refl) H)
    end.

Ltac ingest_leaves :=
  unfold process_document_body; leaves;
  try (eapply spec_weaken; [apply make_docs_clock |];
       let Hclock := fresh "Hclock" in
       intros [? | ?] ? Hclock; leaves; observe; clock_out Hclock).

Lemma ingest_body_shape (req : HttpRequest) :
  spec (ingest_body req)
    (fun r evs =>
       filter is_error_log evs = []
       /\ match r with
          | Ok resp =>
              (status_code resp = 200
               /\ mimetype resp = "application/json"
               /\ exists content, get_body_decode req = Ok content /\ content <> "")
              \/ (status_code resp = 400
                  /\ mimetype resp = "text/plain"
                  /\ get_body_decode req = Ok ""
                  /\ filter is_call evs = [])
          | Raise _ => True
          end).
Proof.
  ingest_leaves.
  all: observe; auto.
  all: split; [reflexivity |].
  - right.
    match goal with H : (?a =? "") = true |- _ => apply String.eqb_eq in H; subst a end.
    now repeat split.
  - left. repeat split. eexists. split; [reflexivity | now apply String.eqb_neq].
  - left. repeat split. eexists. split; [reflexivity | now apply String.eqb_neq].
Qed.

(** X3. Every answer of [process_document] has status 200, 400 or 500.  It is
    400 exactly when the body decodes to the empty text, and then it is
    plain text given before any call to the outside; every other answer is
    typed JSON. *)
Theorem process_document_status_and_type (req : HttpRequest) (w : W) :
  let out := run_ingest req (start w) in
  (status_code (fst out) = 200 \/ status_code (fst out) = 400
   \/ status_code (fst out) = 500)
  /\ (status_code (fst out) = 400 <-> get_body_decode req = Ok "")
  /\ (status_code (fst out) = 400 ->
      mimetype (fst out) = "text/plain" /\ calls (snd out) = [])
  /\ (status_code (fst out) <> 400 -> mimetype (fst out) = "application/json").
Proof.
  intros out. subst out.
  assert (Hempty : get_body_decode req = Ok "" ->
                   status_code (fst (run_ingest req (start w))) = 400).
  { intros Hbody.
    now rewrite (process_document_no_content float_repr split_text service
                   traceback_here req w Hbody). }
  destruct (process_document_outcome w (ingest_body_shape req))
    as (evs & [(r & (_ & Hshape) & Hfst & Htr) | (e & _ & Hfst & Htr)]);
    unfold calls; rewrite Hfst in *; rewrite Htr.
  - destruct Hshape as [(H200 & Hmime & content & Hbody & Hcontent)
                       | (H400 & Hmime & Hbody & Hcalls)].
    + repeat split; try tauto; try congruence.
    + repeat split; try tauto; try congruence.
  - cbn [status_code mimetype ingestion_error] in *.
    repeat split; try tauto; try discriminate.
Qed.

(** X4. [process_document] answers 500 only after logging the error: the error
    line is then the last line of the run and the only one, and the body
    carries its message; a run that answers 200 or 400 logs no error. *)
Theorem process_document_failure_logged (req : HttpRequest) (w : W) :
  let out := run_ingest req (start w) in
  (status_code (fst out) = 500 ->
   exists msg type_name tb,
     filter is_error_log (trace (snd out))
     = [LogError ("Error processing document: " ++ msg)]
     /\ last (trace (snd out)) (LogInfo "")
        = LogError ("Error processing document: " ++ msg)
     /\ body (fst out)
        = json_dumps float_repr
            (JObject [("error", JString msg);
                      ("type", JString type_name);
                      ("trace", JString (str_traceback tb))]))
  /\ (status_code (fst out) <> 500 -> filter is_error_log (trace (snd out)) = []).
Proof.
  intros out. subst out.
  destruct (process_document_outcome w (ingest_body_shape req))
    as (evs & [(r & (Hlog & Hshape) & Hfst & Htr) | (e & (Hlog & _) & Hfst & Htr)]);
    rewrite Hfst, Htr.
  - split.
    + intros H500.
      destruct Hshape as [(H200 & _) | (H400 & _)]; congruence.
    + intros _. cbn [filter is_error_log]. exact Hlog.
  - split.
    + intros _. exists (exn_str e), (exn_type_name e), (exn_traceback e).
      split; [| split; [| reflexivity]].
      * cbn [filter is_error_log]. rewrite filter_app, Hlog. reflexivity.
      * rewrite app_comm_cons. apply last_last.
    + intros Hnot. now elim Hnot.
Qed.

(** *** The upsert *)

Lemma ingest_body_upsert (req : HttpRequest) :
  spec (ingest_body req)
    (fun r evs =>
       (List.length (flat_map upserted evs) <= 1)%nat
       /\ match r with
          | Ok resp =>
              (status_code resp = 200 /\ exists docs, flat_map upsert_done evs = [docs])
              \/ (status_code resp = 400 /\ flat_map upsert_done evs = [])
          | Raise _ => flat_map upsert_done evs = []
          end).
Proof.
  ingest_leaves.
  all: observe; auto.
  all: split; [lia |]; left; split; [reflexivity | eexists; reflexivity].
Qed.

(** X5. [process_document] answers 200 exactly when the upsert returned, and a
    run upserts at most once: no success without the documents stored, no
    failure reported once they are. *)
Theorem process_document_success_iff_upsert (req : HttpRequest) (w : W) :
  let out := run_ingest req (start w) in
  (status_code (fst out) = 200 <->
   exists docs, flat_map upsert_done (trace (snd out)) = [docs])
  /\ (List.length (flat_map upserted (trace (snd out))) <= 1)%nat.
Proof.
  intros out. subst out.
  destruct (process_document_outcome w (ingest_body_upsert req))
    as (evs & [(r & (Hone & Hshape) & Hfst & Htr) | (e & (Hone & Hnone) & Hfst & Htr)]);
    rewrite Hfst, Htr.
  - cbn [flat_map upsert_done upserted app]. split; [| exact Hone].
    destruct Hshape as [(H200 & Hdone) | (H400 & Hnone)].
    + tauto.
    + rewrite Hnone. split; [congruence | intros (docs & Hdocs); discriminate Hdocs].
  - cbn [flat_map upsert_done upserted app]. rewrite !flat_map_app.
    cbn [flat_map upsert_done upserted app]. rewrite !app_nil_r, Hnone.
    split; [| exact Hone].
    split; [discriminate | intros (docs & Hdocs); discriminate Hdocs].
Qed.

(** *** The index *)

Lemma ingest_body_index (req : HttpRequest) :
  spec (ingest_body req)
    (fun _ evs =>
       match flat_map created evs with
       | [] => True
       | [ix] =>
           ix = {| spec_name := "langchain"; spec_dimension := spec_dimension ix;
                   spec_metric := "cosine"; spec_pod_type := "s1.x1";
                   spec_cloud := "aws"; spec_region := "us-east-1" |}
           /\ flat_map dimension_read evs = [spec_dimension ix]
           /\ exists names,
               flat_map listed evs = [names]
               /\ existsb (String.eqb "langchain") names = false
       | _ => False
       end
       /\ (forall names,
              flat_map listed evs = [names] ->
              existsb (String.eqb "langchain") names = true ->
              flat_map created evs = [] /\ filter reads_dimension evs = [])).
Proof.
  ingest_leaves.
  all: observe; unfold index_name in *.
  all: split;
    [ try exact I; try (repeat split; eexists; split; [reflexivity | assumption])
    | intros names Hnames Hexists; try discriminate Hnames;
      injection Hnames as <-; try congruence; now split ].
Qed.

(** X6. [process_document] creates an index at most once in a run, and only
    when [list_indexes] returned no index named [langchain]: it is then
    created under that name with the dimension read from the embedding
    client, the cosine metric, pod type [s1.x1], cloud [aws] and region
    [us-east-1].  When the name is listed, no index is created and the
    dimension is not read. *)
Theorem process_document_creates_missing_index (req : HttpRequest) (w : W) :
  let events := trace (snd (run_ingest req (start w))) in
  match flat_map created events with
  | [] => True
  | [ix] =>
      ix = {| spec_name := "langchain"; spec_dimension := spec_dimension ix;
              spec_metric := "cosine"; spec_pod_type := "s1.x1";
              spec_cloud := "aws"; spec_region := "us-east-1" |}
      /\ flat_map dimension_read events = [spec_dimension ix]
      /\ exists names,
          flat_map listed events = [names]
          /\ existsb (String.eqb "langchain") names = false
  | _ => False
  end
  /\ (forall names,
         flat_map listed events = [names] ->
         existsb (String.eqb "langchain") names = true ->
         flat_map created events = [] /\ filter reads_dimension events = []).
Proof.
  intros events. subst events.
  destruct (process_document_outcome w (ingest_body_index req))
    as (evs & [(r & HQ & _ & Htr) | (e & HQ & _ & Htr)]);
    rewrite Htr; observe; rewrite ?app_nil_r; exact HQ.
Qed.

(** *** What each handler leaves alone *)

Lemma answer_body_reads_only (req : HttpRequest) :
  spec (answer_body req)
    (fun _ evs =>
       filter writes_index evs = []
       /\ flat_map listed evs = []
       /\ filter is_clock evs = []).
Proof.
  unfold get_answer_body. leaves. all: observe; auto.
Qed.

Lemma ingest_body_asks_nothing (req : HttpRequest) :
  spec (ingest_body req)
    (fun _ evs => filter asks evs = [] /\ flat_map chat_keys evs = []).
Proof.
  ingest_leaves. all: observe; auto.
Qed.

(** X7. [get_answer] never writes to the index: no run of it creates an index,
    upserts, lists the indexes or reads the clock.  [process_document]
    never searches the index and never reaches the chat model. *)
Theorem handlers_keep_to_their_calls (req : HttpRequest) (w : W) :
  let answering := trace (snd (run_answer req (start w))) in
  let ingesting := trace (snd (run_ingest req (start w))) in
  (filter writes_index answering = []
   /\ flat_map listed answering = []
   /\ filter is_clock answering = [])
  /\ (filter asks ingesting = [] /\ flat_map chat_keys ingesting = []).
Proof.
  intros answering ingesting. subst answering ingesting. split.
  - destruct (get_answer_outcome w (answer_body_reads_only req))
      as (evs & [(r & HQ & _ & Htr) | (e & HQ & _ & Htr)]);
      rewrite Htr; observe; rewrite ?app_nil_r; exact HQ.
  - destruct (process_document_outcome w (ingest_body_asks_nothing req))
      as (evs & [(r & HQ & _ & Htr) | (e & HQ & _ & Htr)]);
      rewrite Htr; observe; rewrite ?app_nil_r; exact HQ.
Qed.

(** *** Credentials *)

Lemma spec_and {A : Type} (m : M W A) (Q Q' : result A -> list event -> Prop) :
  spec m Q -> spec m Q' -> spec m (fun r evs => Q r evs /\ Q' r evs).
Proof.
  intros H H' st.
  destruct (H st) as (evs & Htr & HQ). destruct (H' st) as (evs' & Htr' & HQ').
  exists evs. split; [exact Htr |]. split; [exact HQ |].
  rewrite Htr in Htr'. apply app_inv_head in Htr'. now subst evs'.
Qed.

Lemma make_docs_count (indexed : list (Z * string)) :
  spec (make_docs service indexed)
    (fun r evs =>
       forallb is_clock evs = true
       /\ match r with
          | Ok _ => List.length (flat_map clock_read evs) = List.length indexed
          | Raise _ => True
          end).
Proof.
  apply spec_and; [apply make_docs_clock |].
  eapply spec_weaken; [apply make_docs_spec |].
  intros [docs | e] evs [_ H]; [apply H | exact I].
Qed.

Lemma ingest_body_missing_key (req : HttpRequest) :
  spec (ingest_body req)
    (fun r evs =>
       forall name v,
         In (name, v) (flat_map env_read evs) ->
         unset v = true ->
         (exists tb, r = Raise (key_error name tb))
         /\ flat_map pinecone_keys evs = []
         /\ filter writes_index evs = []
         /\ flat_map listed evs = []
         /\ exists content,
             get_body_decode req = Ok content
             /\ List.length (flat_map clock_read evs)
                = List.length (split_text 1000 200 separators content)).
Proof.
  unfold process_document_body; leaves.
  all: try (eapply spec_weaken; [apply make_docs_count |];
            intros [? | ?] ? [Hclock Hcount]; leaves; observe; clock_out Hclock).
  all: intros name v; observe; intros Hin Hunset; cbn [In] in Hin.
  all: repeat match goal with
         | H : _ \/ _ |- _ => destruct H
         | H : False |- _ => elim H
         | H : (_, _) = (_, _) |- _ => injection H as <- <-
         end.
  all: try discriminate Hunset.
  all: repeat split; try (eexists; reflexivity).
  all: eexists; split; [reflexivity |].
  all: rewrite ?app_nil_r; unfold enumerate in Hcount;
    rewrite enumerate_from_length in Hcount; exact Hcount.
Qed.

(** X8. When a key [process_document] asks the environment for is unset or
    empty, the answer is 500 with the ValueError that names the variable.
    The index client is not built and the index is neither listed nor
    written; the chunks had been cut and stamped by then, one clock reading
    each. *)
Theorem process_document_missing_key (req : HttpRequest) (w : W)
        (name : string) (v : option string) :
  let out := run_ingest req (start w) in
  In (name, v) (flat_map env_read (trace (snd out))) ->
  unset v = true ->
  (exists tb, fst out = ingestion_error float_repr (key_error name tb))
  /\ flat_map pinecone_keys (trace (snd out)) = []
  /\ filter writes_index (trace (snd out)) = []
  /\ flat_map listed (trace (snd out)) = []
  /\ exists content,
      get_body_decode req = Ok content
      /\ List.length (flat_map clock_read (trace (snd out)))
         = List.length (split_text 1000 200 separators content).
Proof.
  intros out. subst out.
  destruct (process_document_outcome w (ingest_body_missing_key req))
    as (evs & [(r & HQ & Hfst & Htr) | (e & HQ & Hfst & Htr)]);
    rewrite Hfst, Htr; observe; rewrite ?app_nil_r; intros Hin Hunset;
    destruct (HQ name v Hin Hunset) as ((tb & Hr) & Hrest);
    [discriminate Hr | injection Hr as ->].
  split; [now exists tb | exact Hrest].
Qed.

Lemma answer_body_missing_key (req : HttpRequest) :
  spec (answer_body req)
    (fun r evs =>
       forall name v,
         In (name, v) (flat_map env_read evs) ->
         unset v = true ->
         ((exists tb, r = Raise (key_error name tb))
          /\ flat_map pinecone_keys evs = []
          /\ filter asks evs = [])
         \/ (name = "OPENAI_API_KEY"
             /\ flat_map chat_keys evs = [v]
             /\ exists results,
                 flat_map retrieved evs = [results] /\ kept results <> [])).
Proof.
  unfold get_answer_body; leaves.
  all: intros name v; observe; intros Hin Hunset; cbn [In] in Hin.
  all: repeat match goal with
         | H : _ \/ _ |- _ => destruct H
         | H : False |- _ => elim H
         | H : (_, _) = (_, _) |- _ => injection H as <- <-
         end.
  all: try discriminate Hunset.
  all: try (left; repeat split; eexists; reflexivity).
  all: right; repeat split; eexists; (split; [reflexivity |]).
  all: unfold kept; congruence.
Qed.

(** X9. When the environment gives [get_answer] a key that is unset or empty,
    either the answer is 500 with the ValueError that names the variable,
    and then neither the index client is built nor anything is searched or
    asked of the chat model; or the key is the one read for the chat
    client, after a search that kept some result, and the chat client is
    built with it all the same. *)
Theorem get_answer_missing_key (req : HttpRequest) (w : W)
        (name : string) (v : option string) :
  let out := run_answer req (start w) in
  In (name, v) (flat_map env_read (trace (snd out))) ->
  unset v = true ->
  ((exists tb, fst out = server_error float_repr (key_error name tb))
   /\ flat_map pinecone_keys (trace (snd out)) = []
   /\ filter asks (trace (snd out)) = [])
  \/ (name = "OPENAI_API_KEY"
      /\ flat_map chat_keys (trace (snd out)) = [v]
      /\ exists results,
          flat_map retrieved (trace (snd out)) = [results] /\ kept results <> []).
Proof.
  intros out. subst out.
  destruct (get_answer_outcome w (answer_body_missing_key req))
    as (evs & [(r & HQ & Hfst & Htr) | (e & HQ & Hfst & Htr)]);
    rewrite Hfst, Htr; observe; rewrite ?app_nil_r; intros Hin Hunset;
    (destruct (HQ name v Hin Hunset) as [((tb & Hr) & Hrest) | Hchat];
     [| right; exact Hchat]);
    [discriminate Hr | injection Hr as ->].
  left. split; [now exists tb | exact Hrest].
Qed.

Ltac keys_leaf :=
  unfold keys_from_environment; observe;
  (split; [| split]); intros key Hin; cbn [In] in *;
  repeat match goal with
    | H : _ \/ _ |- _ => destruct H
    | H : False |- _ => elim H
    end;
  subst; try (split; [discriminate |]); auto 6.

Lemma answer_body_keys (req : HttpRequest) :
  spec (answer_body req) (fun _ evs => keys_from_environment evs).
Proof.
  unfold get_answer_body; leaves.
  all: keys_leaf.
Qed.

Lemma ingest_body_keys (req : HttpRequest) :
  spec (ingest_body req) (fun _ evs => keys_from_environment evs).
Proof.
  unfold process_document_body; leaves.
  all: try (eapply spec_weaken; [apply make_docs_clock |];
            intros [? | ?] ? Hclock; leaves;
            unfold keys_from_environment; observe; clock_out Hclock).
  all: keys_leaf.
Qed.

Lemma keys_from_environment_log (first : string) (evs : list event) (last : list event) :
  (forall e, In e last -> is_error_log e = true) ->
  keys_from_environment evs ->
  keys_from_environment (LogInfo first :: evs ++ last).
Proof.
  intros Hlast.
  assert (Hnone : forall (B : Type) (f : event -> list B),
             (forall msg, f (LogError msg) = []) -> flat_map f last = []).
  { intros B f Hf. induction last as [| e rest IH]; [reflexivity |].
    cbn [flat_map]. rewrite IH by (intros e' He'; apply Hlast; now right).
    specialize (Hlast e (or_introl eq_refl)).
    destruct e; try discriminate Hlast. now rewrite Hf. }
  unfold keys_from_environment.
  cbn [flat_map embedding_keys pinecone_keys chat_keys env_read app].
  rewrite !flat_map_app, !Hnone, !app_nil_r by reflexivity.
  exact (fun H => H).
Qed.

(** X10. Whatever the run of either handler, a client is only ever built with a
    key the environment returned in that run: the embedding client with a
    non-empty value of [OPENAI_API_KEY], the index client with a non-empty
    value of [PINECONE_API_KEY], the chat client with what
    [OPENAI_API_KEY] gave, unset included. *)
Theorem clients_take_keys_from_environment (req : HttpRequest) (w : W) :
  keys_from_environment (trace (snd (run_answer req (start w))))
  /\ keys_from_environment (trace (snd (run_ingest req (start w)))).
Proof.
  split.
  - destruct (get_answer_outcome w (answer_body_keys req))
      as (evs & [(r & HQ & _ & Htr) | (e & HQ & _ & Htr)]); rewrite Htr.
    + rewrite <- (app_nil_r evs). apply keys_from_environment_log; [intros _ [] | exact HQ].
    + apply keys_from_environment_log; [| exact HQ].
      intros e' [<- | []]. reflexivity.
  - destruct (process_document_outcome w (ingest_body_keys req))
      as (evs & [(r & HQ & _ & Htr) | (e & HQ & _ & Htr)]); rewrite Htr.
    + rewrite <- (app_nil_r evs). apply keys_from_environment_log; [intros _ [] | exact HQ].
    + apply keys_from_environment_log; [| exact HQ].
      intros e' [<- | []]. reflexivity.
Qed.

(** *** What [get_answer] asks for *)

Lemma answer_body_requests (req : HttpRequest) :
  spec (answer_body req)
    (fun _ evs =>
       (List.length (flat_map searched evs) <= 1)%nat
       /\ (List.length (flat_map chat_request evs) <= 1)%nat
       /\ (forall query k,
              In (query, k) (flat_map searched evs) ->
              query = request_query req /\ truthy query = true /\ k = 3)
       /\ (forall args,
              In args (flat_map chat_request evs) ->
              exists results,
                flat_map retrieved evs = [results]
                /\ kept results <> []
                /\ args = {| chat_model := "gpt-4";
                             chat_messages := chat_messages_for str_other req (kept results);
                             chat_temperature := 0.2%float;
                             chat_max_tokens := 800 |})).
Proof.
  unfold get_answer_body; leaves.
  all: observe.
  all: split; [lia |]; split; [lia |].
  all: split; [intros query k Hin | intros args Hin]; cbn [In] in Hin.
  all: repeat match goal with
         | H : _ \/ _ |- _ => destruct H
         | H : False |- _ => elim H
         | H : (_, _) = (_, _) |- _ => injection H as <- <-
         end.
  all: subst;
    unfold chat_messages_for, user_message, context_of, request_system_prompt,
      request_query, kept;
    match goal with H : get_json _ = _ |- _ => rewrite H end.
  all: match goal with H : negb (truthy _) = false |- _ => apply negb_false_iff in H end.
  all: try (repeat split; assumption).
  all: eexists; split; [reflexivity |].
  all: match goal with H : filter _ _ = _ |- _ => rewrite H end.
  all: split; [discriminate | reflexivity].
Qed.

(** X11. [get_answer] searches at most once in a run, with the query of the
    request as it came (truthy, a string or not) and [k = 3].  It asks the
    chat model at most once, and only after a search that returned with
    some result above the threshold: the model is [gpt-4], the temperature
    0.2, the token limit 800, and the messages are the system prompt of the
    request (the default one when it gives none) and the user message made
    of the kept texts and the query. *)
Theorem get_answer_requests (req : HttpRequest) (w : W) :
  let events := trace (snd (run_answer req (start w))) in
  (List.length (flat_map searched events) <= 1)%nat
  /\ (List.length (flat_map chat_request events) <= 1)%nat
  /\ (forall query k,
         In (query, k) (flat_map searched events) ->
         query = request_query req /\ truthy query = true /\ k = 3)
  /\ (forall args,
         In args (flat_map chat_request events) ->
         exists results,
           flat_map retrieved events = [results]
           /\ kept results <> []
           /\ args = {| chat_model := "gpt-4";
                        chat_messages := chat_messages_for str_other req (kept results);
                        chat_temperature := 0.2%float;
                        chat_max_tokens := 800 |}).
Proof.
  intros events. subst events.
  destruct (get_answer_outcome w (answer_body_requests req))
    as (evs & [(r & HQ & _ & Htr) | (e & HQ & _ & Htr)]);
    rewrite Htr; observe; rewrite ?app_nil_r; exact HQ.
Qed.

(** *** The answer *)

Lemma answer_body_first_choice (req : HttpRequest) :
  spec (answer_body req)
    (fun r evs =>
       forall choices,
         flat_map chat_reply evs = [choices] ->
         match choices with
         | [] => exists tb, r = Raise (Exn "IndexError" "list index out of range" tb)
         | None :: _ =>
             exists tb,
               r = Raise (Exn "AttributeError" "'NoneType' object has no attribute 'strip'" tb)
         | Some content :: _ =>
             exists results,
               flat_map retrieved evs = [results]
               /\ r = Ok (answered float_repr (strip content) (kept results))
         end).
Proof.
  unfold get_answer_body; leaves.
  all: intros choices; observe; intros Hreply; try discriminate Hreply.
  all: injection Hreply as <-.
  all: try (eexists; reflexivity).
  eexists. split; [reflexivity |].
  unfold kept. match goal with H : filter _ _ = _ |- _ => rewrite H end. reflexivity.
Qed.

(** X12. The answer of [get_answer] is read off the first choice of the chat
    completion and nothing else: its content, stripped, goes into the 200
    answer beside the kept results; a completion without choices is answered
    500 with the IndexError, a first choice without content 500 with the
    AttributeError. *)
Theorem get_answer_takes_first_choice (req : HttpRequest) (w : W)
        (choices : list (option string)) :
  let out := run_answer req (start w) in
  flat_map chat_reply (trace (snd out)) = [choices] ->
  match choices with
  | [] =>
      exists tb,
        fst out = server_error float_repr (Exn "IndexError" "list index out of range" tb)
  | None :: _ =>
      exists tb,
        fst out
        = server_error float_repr
            (Exn "AttributeError" "'NoneType' object has no attribute 'strip'" tb)
  | Some content :: _ =>
      exists results,
        flat_map retrieved (trace (snd out)) = [results]
        /\ fst out = answered float_repr (strip content) (kept results)
  end.
Proof.
  intros out. subst out.
  destruct (get_answer_outcome w (answer_body_first_choice req))
    as (evs & [(r & HQ & Hfst & Htr) | (e & HQ & Hfst & Htr)]);
    rewrite Hfst, Htr; observe; rewrite ?app_nil_r; intros Hreply;
    specialize (HQ choices Hreply); destruct choices as [| [content |] rest].
  - destruct HQ as (tb & Hr). discriminate Hr.
  - destruct HQ as (results & Hret & Hr). exists results. split; [exact Hret | congruence].
  - destruct HQ as (tb & Hr). discriminate Hr.
  - destruct HQ as (tb & Hr). exists tb. congruence.
  - destruct HQ as (results & _ & Hr). discriminate Hr.
  - destruct HQ as (tb & Hr). exists tb. congruence.
Qed.

Lemma answer_body_answerable (req : HttpRequest) :
  spec (answer_body req)
    (fun r evs =>
       match r with
       | Ok resp =>
           (status_code resp = 200 /\ answerable evs)
           \/ (status_code resp = 400 /\ ~ answerable evs)
       | Raise _ => ~ answerable evs
       end).
Proof.
  unfold get_answer_body; leaves.
  all: unfold answerable; observe.
  all: try (intros (results & Hret & Hanswer); discriminate Hret).
  all: try (right; split; [reflexivity |];
            intros (results & Hret & Hanswer); discriminate Hret).
  all: try (left; split; [reflexivity |]; eexists; split; [reflexivity |];
            first [ left; assumption | right; eexists; eexists; reflexivity ]).
  all: intros (results & Hret & [Hnone | (content & rest & Hreply)]);
    [ injection Hret as <-; unfold kept in Hnone; congruence
    | discriminate Hreply ].
Qed.

(** X13. [get_answer] answers 200 exactly when the search returned and either no
    result passed the threshold or the chat model was reached and its first
    choice had a content. *)
Theorem get_answer_success_iff (req : HttpRequest) (w : W) :
  let out := run_answer req (start w) in
  status_code (fst out) = 200 <-> answerable (trace (snd out)).
Proof.
  intros out. subst out.
  destruct (get_answer_outcome w (answer_body_answerable req))
    as (evs & [(r & HQ & Hfst & Htr) | (e & HQ & Hfst & Htr)]);
    rewrite Hfst, Htr; unfold answerable in *; observe; rewrite ?app_nil_r.
  - destruct HQ as [[H200 Hyes] | [H400 Hno]]; [tauto |].
    split; [congruence | intros Hyes; now elim Hno].
  - split; [discriminate | intros Hyes; now elim HQ].
Qed.

(** *** The log *)

Lemma substring_prefix (n : nat) (s : string) : prefix (substring 0 n s) s = true.
Proof.
  revert s. induction n as [| n IH]; intros [| c s]; cbn; try reflexivity.
  rewrite IH. now destruct (ascii_dec c c).
Qed.

Lemma substring_length (n : nat) (s : string) :
  String.length (substring 0 n s) = Nat.min n (String.length s).
Proof.
  revert s. induction n as [| n IH]; intros [| c s]; cbn; try reflexivity.
  now rewrite IH.
Qed.

Lemma ingest_body_info (req : HttpRequest) :
  spec (ingest_body req)
    (fun _ evs =>
       flat_map info_log evs
       = match get_body_decode req with
         | Ok content => ["Content received: " ++ substring 0 100 content]
         | Raise _ => []
         end).
Proof.
  ingest_leaves.
  all: observe.
  all: reflexivity.
Qed.

Lemma answer_body_info (req : HttpRequest) :
  spec (answer_body req) (fun _ evs => flat_map info_log evs = []).
Proof.
  unfold get_answer_body; leaves. all: observe; reflexivity.
Qed.

(** X14. What the handlers log at level info.  [get_answer] logs its first line
    and nothing of the request.  [process_document] logs its first line
    and, once the body is decoded, one line that shows a prefix of the
    content of at most 100 characters (the whole content when it is that
    short); when decoding fails, the first line only. *)
Theorem handlers_info_log (req : HttpRequest) (w : W) :
  flat_map info_log (trace (snd (run_answer req (start w))))
  = ["Get Answer function processed a request."]
  /\ match get_body_decode req with
     | Ok content =>
         exists shown,
           flat_map info_log (trace (snd (run_ingest req (start w))))
           = ["Process Document function processed a request.";
              "Content received: " ++ shown]
           /\ prefix shown content = true
           /\ String.length shown = Nat.min 100 (String.length content)
     | Raise _ =>
         flat_map info_log (trace (snd (run_ingest req (start w))))
         = ["Process Document function processed a request."]
     end.
Proof.
  split.
  - destruct (get_answer_outcome w (answer_body_info req))
      as (evs & [(r & HQ & _ & Htr) | (e & HQ & _ & Htr)]);
      rewrite Htr; observe; rewrite ?app_nil_r; now rewrite HQ.
  - destruct (process_document_outcome w (ingest_body_info req))
      as (evs & [(r & HQ & _ & Htr) | (e & HQ & _ & Htr)]);
      rewrite Htr; observe; rewrite ?app_nil_r, HQ;
      destruct (get_body_decode req) as [content | e']; try reflexivity.
    all: exists (substring 0 100 content).
    all: split; [reflexivity |]; split; [apply substring_prefix | apply substring_length].
Qed.

(** *** Failures of the outside *)

Lemma make_docs_returned (indexed : list (Z * string)) :
  spec (make_docs service indexed)
    (fun r evs =>
       match r with
       | Ok _ =>
           flat_map failed evs = []
           /\ flat_map returned evs = repeat true (List.length indexed)
       | Raise e =>
           flat_map failed evs = [e]
           /\ exists n, flat_map returned evs = (repeat true n ++ [false])%list
       end).
Proof.
  induction indexed as [| [i t] rest IH]; cbn [make_docs].
  - now apply spec_ret.
  - apply spec_bind, spec_ext. intros [now | e].
    + apply spec_bind. eapply spec_weaken; [exact IH |].
      intros [docs | e] evs.
      * intros [Hfailed Hreturned]. apply spec_ret.
        rewrite app_nil_r. cbn [app flat_map failed returned List.length repeat].
        now rewrite Hfailed, Hreturned.
      * intros [Hfailed (n & Hreturned)].
        cbn [app flat_map failed returned]. rewrite Hfailed, Hreturned.
        split; [reflexivity | now exists (S n)].
    + split; [reflexivity | now exists 0%nat].
Qed.

Lemma returned_until (n : nat) (l : list bool) :
  (exists k, l = (repeat true k ++ [false])%list) ->
  exists m, (repeat true n ++ l)%list = (repeat true m ++ [false])%list.
Proof.
  intros (k & ->). exists (n + k)%nat. now rewrite repeat_app, app_assoc.
Qed.

Ltac until_false :=
  first [ exists 0%nat; reflexivity | exists 1%nat; reflexivity
        | exists 2%nat; reflexivity | exists 3%nat; reflexivity
        | exists 4%nat; reflexivity | exists 5%nat; reflexivity
        | exists 6%nat; reflexivity | exists 7%nat; reflexivity
        | exists 8%nat; reflexivity | exists 9%nat; reflexivity
        | exists 10%nat; reflexivity ].

Ltac failure_leaf :=
  let e := fresh "e" in
  let Hin := fresh "Hin" in
  intros e Hin; cbn [In app] in Hin;
  repeat match goal with
    | H : _ \/ _ |- _ => destruct H
    | H : False |- _ => elim H
    end;
  subst; (split; [reflexivity |]).

Lemma answer_body_failures (req : HttpRequest) :
  spec (answer_body req)
    (fun r evs =>
       forall e,
         In e (flat_map failed evs) ->
         r = Raise e
         /\ exists n, flat_map returned evs = (repeat true n ++ [false])%list).
Proof.
  unfold get_answer_body; leaves.
  all: observe; failure_leaf; until_false.
Qed.

Lemma ingest_body_failures (req : HttpRequest) :
  spec (ingest_body req)
    (fun r evs =>
       forall e,
         In e (flat_map failed evs) ->
         r = Raise e
         /\ exists n, flat_map returned evs = (repeat true n ++ [false])%list).
Proof.
  unfold process_document_body; leaves.
  all: try (eapply spec_weaken; [apply make_docs_returned |];
            intros [? | ?] ? [Hfailed Hreturned]; leaves).
  all: observe; rewrite ?Hfailed, ?app_nil_r.
  all: try (failure_leaf; first [ until_false | exact Hreturned ]).
  all: rewrite Hreturned; failure_leaf; apply returned_until; until_false.
Qed.

(** X15. A failure of the outside is never swallowed.  When a call of a run
    raised, every call before it had returned, nothing was called after it,
    and the answer is the 500 that carries that very exception: its message
    for [get_answer], its message, type and traceback for
    [process_document]. *)
Theorem handlers_stop_at_the_first_failure (req : HttpRequest) (w : W) :
  (forall e,
      In e (flat_map failed (trace (snd (run_answer req (start w))))) ->
      fst (run_answer req (start w)) = server_error float_repr e
      /\ exists n,
          flat_map returned (trace (snd (run_answer req (start w))))
          = (repeat true n ++ [false])%list)
  /\ (forall e,
         In e (flat_map failed (trace (snd (run_ingest req (start w))))) ->
         fst (run_ingest req (start w)) = ingestion_error float_repr e
         /\ exists n,
             flat_map returned (trace (snd (run_ingest req (start w))))
             = (repeat true n ++ [false])%list).
Proof.
  split; intros e0.
  - destruct (get_answer_outcome w (answer_body_failures req))
      as (evs & [(r & HQ & Hfst & Htr) | (e & HQ & Hfst & Htr)]);
      rewrite Hfst, Htr; observe; rewrite ?app_nil_r;
      intros Hin; destruct (HQ e0 Hin) as [Hr Hn]; [discriminate Hr |].
    injection Hr as ->. now split.
  - destruct (process_document_outcome w (ingest_body_failures req))
      as (evs & [(r & HQ & Hfst & Htr) | (e & HQ & Hfst & Htr)]);
      rewrite Hfst, Htr; observe; rewrite ?app_nil_r;
      intros Hin; destruct (HQ e0 Hin) as [Hr Hn]; [discriminate Hr |].
    injection Hr as ->. now split.
Qed.

(** *** One index for both handlers *)

Lemma answer_body_index (req : HttpRequest) :
  spec (answer_body req)
    (fun _ evs =>
       Forall (eq "langchain") (flat_map opened evs)
       /\ Forall (eq "text") (flat_map text_keys evs)).
Proof.
  unfold get_answer_body; leaves.
  all: observe; split; repeat constructor.
Qed.

Lemma ingest_body_opens (req : HttpRequest) :
  spec (ingest_body req)
    (fun _ evs =>
       Forall (eq "langchain") (flat_map opened evs)
       /\ Forall (eq "langchain") (map spec_name (flat_map created evs))
       /\ Forall (eq "text") (flat_map text_keys evs)).
Proof.
  ingest_leaves.
  all: observe; cbn [map spec_name]; repeat split; repeat constructor.
Qed.

(** X16. Both handlers work on one index: whatever the requests and the
    outside, the index [process_document] creates and opens and the index
    [get_answer] opens are all named [langchain], and every vector store is
    built with the text key [text], so that what one handler stores is what
    the other searches. *)
Theorem handlers_share_the_index (stored asked : HttpRequest) (w w' : W) :
  let ingesting := trace (snd (run_ingest stored (start w))) in
  let answering := trace (snd (run_answer asked (start w'))) in
  Forall (eq "langchain")
    (map spec_name (flat_map created ingesting)
       ++ flat_map opened ingesting ++ flat_map opened answering)
  /\ Forall (eq "text") (flat_map text_keys ingesting ++ flat_map text_keys answering).
Proof.
  intros ingesting answering. subst ingesting answering.
  destruct (process_document_outcome w (ingest_body_opens stored))
    as (evs & [(r & HQ & _ & Htr) | (e & HQ & _ & Htr)]);
    destruct (get_answer_outcome w' (answer_body_index asked))
      as (evs' & [(r' & HQ' & _ & Htr') | (e' & HQ' & _ & Htr')]);
    rewrite Htr, Htr'; observe; rewrite ?app_nil_r;
    destruct HQ as (Hopened & Hcreated & Hkeys); destruct HQ' as (Hopened' & Hkeys');
    split; repeat (apply Forall_app; split); assumption.
Qed.

End Runs.

(** ** The further properties at work *)

Lemma process_document_missing_key_witness :
  let out := mock_process_document openai_key_only (Mock.text_request "hello") in
  In ("PINECONE_API_KEY", None) (flat_map env_read (trace (snd out)))
  /\ status_code (fst out) = 500
  /\ (exists tb,
         fst out
         = ingestion_error Mock.float_repr
             (Exn "ValueError" "PINECONE_API_KEY not found in environment variables" tb))
  /\ flat_map pinecone_keys (trace (snd out)) = []
  /\ flat_map embedding_keys (trace (snd out)) = ["sk-test"]
  /\ List.length (flat_map clock_read (trace (snd out))) = 1%nat.
Proof.
  assert (Hin : In ("PINECONE_API_KEY", None)
                  (flat_map env_read
                     (trace (snd (mock_process_document openai_key_only
                                    (Mock.text_request "hello"))))))
    by (right; left; reflexivity).
  destruct (process_document_missing_key Mock.float_repr LangChain.split_text
              (Mock.service openai_key_only) Mock.traceback_here
              (Mock.text_request "hello") 0%nat "PINECONE_API_KEY" None Hin eq_refl)
    as (Herror & Hpinecone & _ & _ & _).
  split; [exact Hin |]. split; [reflexivity |]. split; [exact Herror |].
  split; [exact Hpinecone |]. split; reflexivity.
Defined.

Lemma get_answer_missing_key_witness :
  let out := mock_get_answer no_keys (ask "x") in
  hd_error (flat_map env_read (trace (snd out))) = Some ("OPENAI_API_KEY", None)
  /\ ((exists tb,
          fst out
          = server_error Mock.float_repr
              (Exn "ValueError" "OPENAI_API_KEY not found in environment variables" tb))
      /\ flat_map pinecone_keys (trace (snd out)) = []
      /\ filter asks (trace (snd out)) = []
      \/ "OPENAI_API_KEY" = "OPENAI_API_KEY"
         /\ flat_map chat_keys (trace (snd out)) = [None]
         /\ exists results,
             flat_map retrieved (trace (snd out)) = [results] /\ kept results <> []).
Proof.
  split; [reflexivity |].
  exact (get_answer_missing_key Mock.float_repr Mock.str_other (Mock.service no_keys)
           Mock.traceback_here (ask "x") 0%nat "OPENAI_API_KEY" None
           (or_introl eq_refl) eq_refl).
Defined.

Lemma get_answer_takes_first_choice_witness :
  let out := mock_get_answer (Mock.ready Mock.three_hits) (ask "x") in
  flat_map chat_reply (trace (snd out)) = [[Some " An answer. "]]
  /\ strip " An answer. " = "An answer."
  /\ exists results,
      flat_map retrieved (trace (snd out)) = [results]
      /\ fst out = answered Mock.float_repr "An answer." (kept results).
Proof.
  split; [reflexivity |]. split; [reflexivity |].
  exact (get_answer_takes_first_choice Mock.float_repr Mock.str_other
           (Mock.service (Mock.ready Mock.three_hits)) Mock.traceback_here
           (ask "x") 0%nat (choices := [Some " An answer. "]) eq_refl).
Defined.

Lemma get_answer_success_iff_witness :
  status_code (fst (mock_get_answer (Mock.ready Mock.three_hits) (ask "x"))) = 200
  /\ answerable (trace (snd (mock_get_answer (Mock.ready Mock.three_hits) (ask "x"))))
  /\ status_code (fst (mock_get_answer search_down (ask "x"))) = 500
  /\ ~ answerable (trace (snd (mock_get_answer search_down (ask "x")))).
Proof.
  split; [reflexivity |]. split.
  - now apply (get_answer_success_iff Mock.float_repr Mock.str_other
                 (Mock.service (Mock.ready Mock.three_hits)) Mock.traceback_here
                 (ask "x") 0%nat).
  - split; [reflexivity |]. intros Hyes.
    apply (get_answer_success_iff Mock.float_repr Mock.str_other
             (Mock.service search_down) Mock.traceback_here (ask "x") 0%nat) in Hyes.
    discriminate Hyes.
Defined.

Lemma handlers_stop_at_the_first_failure_witness :
  let out := mock_get_answer search_down (ask "x") in
  flat_map failed (trace (snd out)) = [unavailable]
  /\ fst out = server_error Mock.float_repr unavailable
  /\ exists n, flat_map returned (trace (snd out)) = (repeat true n ++ [false])%list.
Proof.
  split; [reflexivity |].
  exact (proj1 (handlers_stop_at_the_first_failure Mock.float_repr Mock.str_other
                  LangChain.split_text (Mock.service search_down) Mock.traceback_here
                  (ask "x") 0%nat)
           unavailable (or_introl eq_refl)).
Defined.

Lemma process_document_creates_missing_index_witness :
  let events := trace (snd (mock_process_document no_index (Mock.text_request "hello"))) in
  flat_map listed events = [["other"]]
  /\ flat_map created events
     = [{| spec_name := "langchain"; spec_dimension := 1536; spec_metric := "cosine";
           spec_pod_type := "s1.x1"; spec_cloud := "aws"; spec_region := "us-east-1" |}]
  /\ flat_map dimension_read events = [1536]
  /\ (forall names,
         flat_map listed
           (trace (snd (mock_process_document (Mock.ready []) (Mock.text_request "hello"))))
         = [names] ->
         existsb (String.eqb "langchain") names = true ->
         flat_map created
           (trace (snd (mock_process_document (Mock.ready []) (Mock.text_request "hello"))))
         = []
         /\ filter reads_dimension
              (trace (snd (mock_process_document (Mock.ready [])
                             (Mock.text_request "hello"))))
            = []).
Proof.
  split; [reflexivity |]. split; [reflexivity |].
  split.
  - exact (proj1 (proj2 (proj1 (process_document_creates_missing_index Mock.float_repr
                                  LangChain.split_text (Mock.service no_index)
                                  Mock.traceback_here (Mock.text_request "hello") 0%nat)))).
  - exact (proj2 (process_document_creates_missing_index Mock.float_repr
                    LangChain.split_text (Mock.service (Mock.ready []))
                    Mock.traceback_here (Mock.text_request "hello") 0%nat)).
Defined.

Lemma get_answer_failure_logged_witness :
  let out := mock_get_answer search_down (ask "x") in
  status_code (fst out) = 500
  /\ exists msg,
      filter is_error_log (trace (snd out)) = [LogError ("Error generating answer: " ++ msg)]
      /\ last (trace (snd out)) (LogInfo "") = LogError ("Error generating answer: " ++ msg)
      /\ body (fst out) = json_dumps Mock.float_repr (JObject [("error", JString msg)]).
Proof.
  split; [reflexivity |].
  exact (proj1 (get_answer_failure_logged Mock.float_repr Mock.str_other
                  (Mock.service search_down) Mock.traceback_here (ask "x") 0%nat)
           eq_refl).
Defined.

Lemma process_document_failure_logged_witness :
  let out := mock_process_document openai_key_only (Mock.text_request "hello") in
  status_code (fst out) = 500
  /\ exists msg type_name tb,
      filter is_error_log (trace (snd out))
      = [LogError ("Error processing document: " ++ msg)]
      /\ last (trace (snd out)) (LogInfo "")
         = LogError ("Error processing document: " ++ msg)
      /\ body (fst out)
         = json_dumps Mock.float_repr
             (JObject [("error", JString msg);
                       ("type", JString type_name);
                       ("trace", JString (str_traceback tb))]).
Proof.
  split; [reflexivity |].
  exact (proj1 (process_document_failure_logged Mock.float_repr LangChain.split_text
                  (Mock.service openai_key_only) Mock.traceback_here
                  (Mock.text_request "hello") 0%nat)
           eq_refl).
Defined.

Lemma process_document_success_iff_upsert_witness :
  let out := mock_process_document no_index (Mock.text_request "hello") in
  status_code (fst out) = 200
  /\ (exists docs, flat_map upsert_done (trace (snd out)) = [docs])
  /\ status_code (fst (mock_process_document no_keys (Mock.text_request "hello"))) = 500
  /\ flat_map upserted (trace (snd (mock_process_document no_keys
                                      (Mock.text_request "hello"))))
     = [].
Proof.
  split; [reflexivity |]. split; [| split; reflexivity].
  exact (proj1 (proj1 (process_document_success_iff_upsert Mock.float_repr
                         LangChain.split_text (Mock.service no_index)
                         Mock.traceback_here (Mock.text_request "hello") 0%nat))
           eq_refl).
Defined.

Lemma get_answer_requests_witness :
  let events := trace (snd (mock_get_answer (Mock.ready Mock.three_hits) (ask "x"))) in
  flat_map searched events = [(JString "x", 3)]
  /\ map chat_model (flat_map chat_request events) = ["gpt-4"]
  /\ forall args,
      In args (flat_map chat_request events) ->
      exists results,
        flat_map retrieved events = [results]
        /\ kept results <> []
        /\ args = {| chat_model := "gpt-4";
                     chat_messages :=
                       chat_messages_for Mock.str_other (ask "x") (kept results);
                     chat_temperature := 0.2%float;
                     chat_max_tokens := 800 |}.
Proof.
  split; [reflexivity |]. split; [reflexivity |].
  exact (proj2 (proj2 (proj2 (get_answer_requests Mock.float_repr Mock.str_other
                                (Mock.service (Mock.ready Mock.three_hits))
                                Mock.traceback_here (ask "x") 0%nat)))).
Defined.
